(** * PyMine: query protocol buffer, query server handler and chunk packets

    A shallow embedding of

    - [pymine/logic/query.py]   ([QueryBuffer], [QueryServer.handle_packet]),
    - [pymine/types/packet.py]  ([Packet.__init__]),
    - [pymine/net/packets/play/chunk.py] ([PlayUnloadChunk], [PlayChunkData],
      [PlayUpdateLight]),

    together with the properties of the wire format that the specification
    states about them.

    Conventions: a Python [int] is a [Z]; a [bytes] object is a
    [list Byte.byte]; a [str] is the list of its code points; a [dict] whose
    iteration order is irrelevant is a [gmap], one whose order matters is an
    association list in insertion order.  A raised exception is a value of
    [result]; state changes made before the exception are kept, as in
    Python. *)

From Stdlib Require Import ZArith NArith List Bool Lia Strings.Byte Ascii String.
From Stdlib Require Import DecimalString Sorting.Sorted.
From stdpp Require Import base gmap strings list sorting.
Import ListNotations.

Local Open Scope Z_scope.

(** ** Python values shared by the modules *)

Abbreviation bytes := (list Byte.byte).

(** A [str]: the sequence of its Unicode code points. *)
Abbreviation str := (list N).

(** The exceptions the modelled code can raise. *)
Inductive exn : Type :=
| ValueError          (* raised by [unpack_magic] *)
| StructError         (* [struct.error]: wrong length or out of range *)
| UnicodeEncodeError  (* [bytes(s, "latin-1")] on a code point above 255 *).

Inductive result (A : Type) : Type :=
| Ok (a : A)
| Raise (e : exn).
Arguments Ok {A} a.
Arguments Raise {A} e.

Definition is_raise {A} (r : result A) : bool :=
  match r with Ok _ => false | Raise _ => true end.

(** *** Slices

    [l[start:stop]] for integer bounds: a negative bound counts from the end,
    and both bounds are clamped to [0, len(l)]. *)

Definition slice_index (len i : Z) : Z :=
  if i <? 0 then Z.max 0 (i + len) else Z.min i len.

Definition py_slice {A} (l : list A) (start stop : Z) : list A :=
  let len := Z.of_nat (length l) in
  let a := slice_index len start in
  let b := slice_index len stop in
  firstn (Z.to_nat (b - a)) (skipn (Z.to_nat a) l).

(** [l[start:]] *)
Definition py_slice_from {A} (l : list A) (start : Z) : list A :=
  skipn (Z.to_nat (slice_index (Z.of_nat (length l)) start)) l.

(** *** Bytes as numbers *)

Definition byte_val (b : Byte.byte) : Z := Z.of_N (Byte.to_N b).

Definition byte_of_Z (z : Z) : Byte.byte :=
  match Byte.of_N (Z.to_N (z mod 256)) with
  | Some b => b
  | None => Byte.x00
  end.

Fixpoint bytes_eqb (a b : bytes) : bool :=
  match a, b with
  | [], [] => true
  | x :: a', y :: b' => Byte.eqb x y && bytes_eqb a' b'
  | _, _ => false
  end.

(** *** The [struct] formats the module uses

    [struct.unpack] raises [struct.error] unless the buffer has exactly the
    size of the format; [struct.pack] raises it when the number does not fit
    the format. *)

Definition unsigned_be (bs : bytes) : Z :=
  fold_left (fun acc b => acc * 256 + byte_val b) bs 0.

Definition to_signed (bits u : Z) : Z :=
  if u <? 2 ^ (bits - 1) then u else u - 2 ^ bits.

Fixpoint bytes_be (size : nat) (u : Z) : bytes :=
  match size with
  | O => []
  | S n => bytes_be n (u / 256) ++ [byte_of_Z u]
  end.

Inductive endian : Type := BigEndian | LittleEndian.

Definition in_order (e : endian) (bs : bytes) : bytes :=
  match e with BigEndian => bs | LittleEndian => rev bs end.

Definition struct_unpack (e : endian) (signed : bool) (size : nat) (bs : bytes)
  : result Z :=
  if Nat.eqb (length bs) size then
    let u := unsigned_be (in_order e bs) in
    Ok (if signed then to_signed (8 * Z.of_nat size) u else u)
  else Raise StructError.

Definition struct_pack (e : endian) (signed : bool) (size : nat) (z : Z)
  : result bytes :=
  let bits := 8 * Z.of_nat size in
  let lo := if signed then - 2 ^ (bits - 1) else 0 in
  let hi := if signed then 2 ^ (bits - 1) else 2 ^ bits in
  if (lo <=? z) && (z <? hi) then Ok (in_order e (bytes_be size (z mod 2 ^ bits)))
  else Raise StructError.

(** *** [str()] and the Latin-1 codec *)

(** The objects [pack_string] is applied to. *)
Inductive pyobj : Type :=
| PyStr (s : str)
| PyInt (z : Z).

Definition str_of_string (s : string) : str :=
  map N_of_ascii (list_ascii_of_string s).

(** [str(o)]: a string is itself, an integer its decimal numeral. *)
Definition py_str (o : pyobj) : str :=
  match o with
  | PyStr s => s
  | PyInt z => str_of_string (NilZero.string_of_int (Z.to_int z))
  end.

(** [bytes(s, "latin-1")] *)
Fixpoint latin1_encode (s : str) : result bytes :=
  match s with
  | [] => Ok []
  | c :: s' =>
      match Byte.of_N c with
      | None => Raise UnicodeEncodeError
      | Some b =>
          match latin1_encode s' with
          | Ok bs => Ok (b :: bs)
          | Raise e => Raise e
          end
      end
  end.

(** [bs.decode("latin-1")] *)
Definition latin1_decode (bs : bytes) : str := map Byte.to_N bs.

(** ** [QueryBuffer] *)

Module QueryBuffer.

Record t : Type := mk { buf : bytes; pos : Z }.

(** [QueryBuffer(buf)]: the position starts at 0. *)
Definition init (data : bytes) : t := {| buf := data; pos := 0 |}.

(** Computations on a buffer: a result together with the buffer afterwards. *)
Definition M (A : Type) : Type := t -> result A * t.

Definition ret {A} (a : A) : M A := fun q => (Ok a, q).
Definition raise {A} (e : exn) : M A := fun q => (Raise e, q).
Definition bind {A B} (m : M A) (k : A -> M B) : M B :=
  fun q => match m q with
           | (Ok a, q') => k a q'
           | (Raise e, q') => (Raise e, q')
           end.
Definition lift {A} (r : result A) : M A := fun q => (r, q).

Notation "x <- m ;; k" := (bind m (fun x => k))
  (at level 100, m at next level, right associativity).

(** [write]: [self.buf += data]. *)
Definition write (data : bytes) : M unit :=
  fun q => (Ok tt, {| buf := buf q ++ data; pos := pos q |}).

(** [read]: the slice is taken first; the [finally] clause then advances the
    position by [length], which for an omitted length has been set to
    [len(self.buf)]. *)
Definition read (length : option Z) : M bytes :=
  fun q =>
    match length with
    | None =>
        let length := Z.of_nat (List.length (buf q)) in
        (Ok (py_slice_from (buf q) (pos q)),
         {| buf := buf q; pos := pos q + length |})
    | Some length =>
        (Ok (py_slice (buf q) (pos q) (pos q + length)),
         {| buf := buf q; pos := pos q + length |})
    end.

(** [reset] *)
Definition reset : M unit :=
  fun q => (Ok tt, {| buf := buf q; pos := 0 |}).

(** Bytes between the read position and the end of the buffer. *)
Definition remaining (q : t) : Z := Z.of_nat (List.length (buf q)) - pos q.


Definition unpack_short : M Z :=
  bs <- read (Some 2) ;; lift (struct_unpack LittleEndian true 2 bs).

Definition pack_magic : bytes := [Byte.xfe; Byte.xfd].

Definition unpack_magic : M Z :=
  bs <- read (Some 2) ;;
  magic <- lift (struct_unpack BigEndian false 2 bs) ;;
  if negb (magic =? 65277) then raise ValueError else ret magic.

Definition pack_string (o : pyobj) : result bytes :=
  match latin1_encode (py_str o) with
  | Ok bs => Ok (bs ++ [Byte.x00])
  | Raise e => Raise e
  end.

(** The loop of [unpack_string], [out] being the bytes collected so far.
    Each unit of [fuel] pays for one iteration; [None] means that the loop is
    still running when the fuel is spent. *)
Fixpoint unpack_string_loop (fuel : nat) (out : bytes) (q : t)
  : option (result str * t) :=
  match fuel with
  | O => None
  | S fuel' =>
      match read (Some 1) q with
      | (Raise e, q') => Some (Raise e, q')
      | (Ok b, q') =>
          if bytes_eqb b [Byte.x00] then Some (Ok (latin1_decode out), q')
          else unpack_string_loop fuel' (out ++ b) q'
      end
  end.

Definition unpack_string (fuel : nat) (q : t) : option (result str * t) :=
  unpack_string_loop fuel [] q.

Definition pack_int32 (num : Z) : result bytes :=
  struct_pack BigEndian true 4 num.

Definition unpack_int32 : M Z :=
  bs <- read (Some 4) ;; lift (struct_unpack BigEndian true 4 bs).

Definition pack_byte (byte : Z) : result bytes :=
  struct_pack BigEndian true 1 byte.

Definition unpack_byte : M Z :=
  bs <- read (Some 1) ;; lift (struct_unpack BigEndian true 1 bs).

End QueryBuffer.

(** ** [QueryServer] *)

(** Sequencing of packing steps: the first one that raises decides. *)
Definition result_bind {A B} (r : result A) (k : A -> result B) : result B :=
  match r with Ok a => k a | Raise e => Raise e end.

(** [r1 + r2 + ...] on packed fields, evaluated left to right. *)
Fixpoint concat_results (rs : list (result bytes)) : result bytes :=
  match rs with
  | [] => Ok []
  | r :: rs' =>
      result_bind r (fun b =>
      result_bind (concat_results rs') (fun bs => Ok (b ++ bs)))
  end.

Module QueryServer.

Local Notation "x <- m ;; k" := (QueryBuffer.bind m (fun x => k))
  (at level 100, m at next level, right associativity).

(** What the handler reads from [self.server]. *)
Record server : Type := {
  addr : str;                (* server.addr *)
  port : Z;                  (* server.port *)
  conf_motd : str;           (* server.conf["motd"] *)
  conf_level_name : str;     (* server.conf["level_name"] *)
  conf_max_players : Z;      (* server.conf["max_players"] *)
  meta_version : str;        (* server.meta.version *)
  cache_states : nat         (* len(server.cache.states) *)
}.

(** Messages handed to [self.console]. *)
Inductive console_msg : Type :=
| Debug_invalid_magic
| Warn_invalid_token (challenge_token : Z)
| Error_exception (e : exn).

Section Handler.

(** The key of the session map: the remote address [recv] reports. *)
Context {remote : Type} `{Countable remote}.

(** The state a handler run can change: the session map
    [self.challenge_cache], the datagrams handed to [self._server.send], and
    the console. *)
Record state : Type := {
  challenge_cache : gmap remote Z;
  sent : list (bytes * remote);
  console : list console_msg
}.

Definition set_challenge (r : remote) (token : Z) (st : state) : state :=
  {| challenge_cache := <[r := token]> (challenge_cache st);
     sent := sent st; console := console st |}.

Definition send (out : bytes) (r : remote) (st : state) : state :=
  {| challenge_cache := challenge_cache st;
     sent := sent st ++ [(out, r)]; console := console st |}.

Definition log (m : console_msg) (st : state) : state :=
  {| challenge_cache := challenge_cache st;
     sent := sent st; console := console st ++ [m] |}.

(** Lines 171-177: packet type, session id and challenge token. *)
Definition unpack_request : QueryBuffer.M (Z * Z * Z) :=
  (packet_type <- QueryBuffer.unpack_byte ;;
   session_id <- QueryBuffer.unpack_int32 ;;
   challenge_token <-
     (fun q =>
        if bytes_eqb (py_slice_from (QueryBuffer.buf q) (QueryBuffer.pos q)) []
        then QueryBuffer.ret 0 q
        else QueryBuffer.unpack_int32 q) ;;
   QueryBuffer.ret (packet_type, session_id, challenge_token)).

Definition handshake_response (session_id challenge_token : Z) : result bytes :=
  concat_results
    [ QueryBuffer.pack_byte 9;
      QueryBuffer.pack_int32 session_id;
      QueryBuffer.pack_string (PyInt challenge_token) ].

Definition full_stat_padding : bytes :=
  [Byte.x73; Byte.x70; Byte.x6c; Byte.x69; Byte.x74; Byte.x6e; Byte.x75;
   Byte.x6d; Byte.x00; Byte.x80; Byte.x00].

Definition full_stat_player_padding : bytes :=
  [Byte.x01; Byte.x70; Byte.x6c; Byte.x61; Byte.x79; Byte.x65; Byte.x72;
   Byte.x5f; Byte.x00; Byte.x00].

(** The literal that stands for the player section. *)
Definition full_stat_player_section : bytes :=
  [Byte.x50; Byte.x65; Byte.x6e; Byte.x69; Byte.x73; Byte.x00; Byte.x00].

Definition pack_literal (s : string) : result bytes :=
  QueryBuffer.pack_string (PyStr (str_of_string s)).

Definition full_stat (srv : server) (packet_type session_id : Z) : result bytes :=
  concat_results
    [ QueryBuffer.pack_byte packet_type;
      QueryBuffer.pack_int32 session_id;
      Ok full_stat_padding;
      pack_literal "hostname";
      QueryBuffer.pack_string (PyStr (conf_motd srv));
      pack_literal "game type";
      pack_literal "SMP";
      pack_literal "game_id";
      pack_literal "MINECRAFT";
      pack_literal "version";
      QueryBuffer.pack_string (PyStr (meta_version srv));
      pack_literal "plugins";
      pack_literal EmptyString;
      pack_literal "map";
      QueryBuffer.pack_string (PyStr (conf_level_name srv));
      pack_literal "numplayers";
      QueryBuffer.pack_string (PyInt (Z.of_nat (cache_states srv)));
      pack_literal "maxplayers";
      QueryBuffer.pack_string (PyInt (conf_max_players srv));
      pack_literal "hostport";
      QueryBuffer.pack_string (PyInt (port srv));
      pack_literal "hostip";
      QueryBuffer.pack_string (PyStr (addr srv));
      Ok [Byte.x00];
      Ok full_stat_player_padding;
      Ok full_stat_player_section ].

Definition basic_stat (srv : server) (packet_type session_id : Z) : result bytes :=
  concat_results
    [ QueryBuffer.pack_byte packet_type;
      QueryBuffer.pack_int32 session_id;
      QueryBuffer.pack_string (PyStr (conf_motd srv));
      pack_literal "SMP";
      QueryBuffer.pack_string (PyStr (conf_level_name srv));
      QueryBuffer.pack_string (PyInt (Z.of_nat (cache_states srv)));
      QueryBuffer.pack_string (PyInt (conf_max_players srv));
      QueryBuffer.pack_string (PyInt (port srv));
      QueryBuffer.pack_string (PyStr (addr srv)) ].

(** [buf.buf[buf.pos : buf.pos + 4] == b"\x00\x00\x00\x00"] *)
Definition wants_full_stat (q : QueryBuffer.t) : bool :=
  bytes_eqb
    (py_slice (QueryBuffer.buf q) (QueryBuffer.pos q) (QueryBuffer.pos q + 4))
    [Byte.x00; Byte.x00; Byte.x00; Byte.x00].

(** [handle_packet].  An exception other than the [ValueError] of the magic
    check reaches the outer handler, which reports it on the console.  The
    half-second sleep after a stat response and task cancellation are not part
    of the model. *)
Definition handle_packet (srv : server) (r : remote) (q : QueryBuffer.t)
    (st : state) : state :=
  match QueryBuffer.unpack_magic q with
  | (Raise ValueError, _) => log Debug_invalid_magic st
  | (Raise e, _) => log (Error_exception e) st
  | (Ok _, q1) =>
      match unpack_request q1 with
      | (Raise e, _) => log (Error_exception e) st
      | (Ok (packet_type, session_id, challenge_token), q2) =>
          if packet_type =? 9 then
            let st1 := set_challenge r challenge_token st in
            match handshake_response session_id challenge_token with
            | Ok out => send out r st1
            | Raise e => log (Error_exception e) st1
            end
          else if packet_type =? 0 then
            if negb (bool_decide (challenge_cache st !! r = Some challenge_token))
            then log (Warn_invalid_token challenge_token) st
            else
              match (if wants_full_stat q2
                     then full_stat srv packet_type session_id
                     else basic_stat srv packet_type session_id) with
              | Ok out => send out r st
              | Raise e => log (Error_exception e) st
              end
          else st
      end
  end.

End Handler.

Arguments state remote {_ _}.

End QueryServer.

(** ** [Packet] and the chunk packets *)

Module Packet.

Local Open Scope string_scope.

Section Objects.

(** The type of the chunk objects stored on packet instances. *)
Context {chunk : Type}.

(** Attribute values. *)
Inductive value : Type :=
| VNone
| VInt (z : Z)
| VBool (b : bool)
| VChunk (c : chunk).

(** A class is its method resolution order: its own namespace first, then
    those of its bases ([object], which defines none of the attributes used
    here, is left out). *)
Definition class : Type := list (gmap string value).


Record instance : Type := {
  inst_class : class;       (* self.__class__ *)
  inst_dict : gmap string value   (* self.__dict__ *)
}.





Definition new (cls : class) : instance := {| inst_class := cls; inst_dict := ∅ |}.







End Objects.

Arguments value chunk : clear implicits.
Arguments class chunk : clear implicits.
Arguments instance chunk : clear implicits.

End Packet.

Module ChunkPackets.

Section Encode.

(** A chunk section and an NBT tag are opaque here: the encoder only hands
    them to the packing functions. *)
Context {section nbt_tag : Type}.

(** What [encode] reads from a [Chunk]: the coordinates, the [sections]
    dict in its iteration order, the two height maps and the biomes. *)
Record chunk : Type := {
  x : Z;
  z : Z;
  sections : list (Z * section);
  heightmaps_motion_blocking : nbt_tag;   (* chunk["Heightmaps"]["MOTION_BLOCKING"] *)
  heightmaps_world_surface : nbt_tag;     (* chunk["Heightmaps"]["WORLD_SURFACE"] *)
  biomes : list Z                         (* chunk["Biomes"] *)
}.

(** The packing functions of [pymine.types.buffer.Buffer], which is not among
    the sources: [Buffer.pack("i", _)], [Buffer.pack("?", _)],
    [Buffer.pack_varint], [Buffer.pack_nbt] applied to a [TAG_Compound] of the
    given name and children, and [Buffer.pack_chunk_section_blocks]. *)
Variable pack_int : Z -> bytes.
Variable pack_bool : bool -> bytes.
Variable pack_varint : Z -> bytes.
Variable pack_nbt_compound : string -> list nbt_tag -> bytes.
Variable pack_chunk_section_blocks : section -> bytes.

(** Modelled from the spec: the scratch [Buffer()] of [encode].  The class is
    not among the sources; by the spec's byte cursor, [write] appends to the
    end, [len] is the number of bytes held, and [read()] on a cursor that has
    not been read yet returns all of them.  The scratch buffer is therefore
    the byte sequence written so far. *)
Definition Buffer_write (buffer data : bytes) : bytes := buffer ++ data.

(** One iteration of the loop over [self.chunk.sections.items()]. *)
Definition encode_step (acc : Z * bytes) (item : Z * section) : Z * bytes :=
  let '(mask, chunk_sections_buffer) := acc in
  let '(y, sec) := item in
  if 0 <=? y then
    (Z.lor mask (Z.shiftl 1 y),
     Buffer_write chunk_sections_buffer (pack_chunk_section_blocks sec))
  else (mask, chunk_sections_buffer).

(** The loop: the bit mask and the scratch buffer it leaves. *)
Definition encode_sections (items : list (Z * section)) : Z * bytes :=
  fold_left encode_step items (0, []).

(** [PlayChunkData.encode] *)
Definition PlayChunkData_encode (c : chunk) (full : bool) : bytes :=
  let out := pack_int (x c) ++ pack_int (z c) ++ pack_bool full in
  let '(mask, chunk_sections_buffer) := encode_sections (sections c) in
  let out :=
    out ++ pack_varint mask
        ++ pack_nbt_compound EmptyString
             [heightmaps_motion_blocking c; heightmaps_world_surface c] in
  let out :=
    if full then
      out ++ pack_varint (Z.of_nat (length (biomes c)))
          ++ concat (map pack_varint (biomes c))
    else out in
  let out :=
    out ++ pack_varint (Z.of_nat (length chunk_sections_buffer))
        ++ chunk_sections_buffer in
  out ++ pack_varint 0.

(** [PlayUnloadChunk.encode] *)
Definition PlayUnloadChunk_encode (chunk_x chunk_z : Z) : bytes :=
  pack_int chunk_x ++ pack_int chunk_z.

(** The sections with a non-negative index, in iteration order. *)
Definition sent_sections (items : list (Z * section)) : list (Z * section) :=
  List.filter (fun item => 0 <=? fst item) items.

(** The block payloads of a list of sections, one after the other. *)
Definition blocks_of (items : list (Z * section)) : bytes :=
  concat (map (fun item => pack_chunk_section_blocks (snd item)) items).




End Encode.

Arguments chunk : clear implicits.

End ChunkPackets.

(** ** The layout of a query request

    The datagrams the properties below speak about: the magic marker, a type
    byte, four bytes of session id and then either nothing or four bytes of
    challenge token followed by any payload. *)

Module Request.

Definition word4 : Type := Byte.byte * Byte.byte * Byte.byte * Byte.byte.

Definition word4_bytes (w : word4) : bytes :=
  let '(b0, b1, b2, b3) := w in [b0; b1; b2; b3].

(** The four bytes read as a big-endian signed 32-bit integer. *)
Definition word4_int (w : word4) : Z := to_signed 32 (unsigned_be (word4_bytes w)).

Definition token_bytes (tok : option (word4 * bytes)) : bytes :=
  match tok with
  | None => []
  | Some (w, payload) => word4_bytes w ++ payload
  end.

(** The token of a request; an absent token counts as 0. *)
Definition token_value (tok : option (word4 * bytes)) : Z :=
  match tok with
  | None => 0
  | Some (w, _) => word4_int w
  end.

(** The bytes that follow the token. *)
Definition payload (tok : option (word4 * bytes)) : bytes :=
  match tok with
  | None => []
  | Some (_, p) => p
  end.

Definition datagram (type : Byte.byte) (session : word4)
    (tok : option (word4 * bytes)) : bytes :=
  [Byte.xfe; Byte.xfd] ++ [type] ++ word4_bytes session ++ token_bytes tok.

(** The characters of a numeral or of a literal as bytes. *)
Definition ascii_bytes (s : string) : bytes :=
  map byte_of_ascii (list_ascii_of_string s).

(** The decimal numeral of an integer, one byte per character. *)
Definition decimal_bytes (z : Z) : bytes :=
  ascii_bytes (NilZero.string_of_int (Z.to_int z)).

(** A null-terminated field. *)
Definition cstr (bs : bytes) : bytes := bs ++ [Byte.x00].

(** The layout of a full stat response for given field contents: the key and
    value strings between the two padding markers, then the player section
    literal. *)
Definition full_stat_layout (session : word4)
    (motd version level numplayers maxplayers hostport hostip : bytes) : bytes :=
  [Byte.x00] ++ word4_bytes session
  ++ QueryServer.full_stat_padding
  ++ cstr (ascii_bytes "hostname") ++ cstr motd
  ++ cstr (ascii_bytes "game type") ++ cstr (ascii_bytes "SMP")
  ++ cstr (ascii_bytes "game_id") ++ cstr (ascii_bytes "MINECRAFT")
  ++ cstr (ascii_bytes "version") ++ cstr version
  ++ cstr (ascii_bytes "plugins") ++ cstr []
  ++ cstr (ascii_bytes "map") ++ cstr level
  ++ cstr (ascii_bytes "numplayers") ++ cstr numplayers
  ++ cstr (ascii_bytes "maxplayers") ++ cstr maxplayers
  ++ cstr (ascii_bytes "hostport") ++ cstr hostport
  ++ cstr (ascii_bytes "hostip") ++ cstr hostip
  ++ [Byte.x00]
  ++ QueryServer.full_stat_player_padding
  ++ QueryServer.full_stat_player_section.

(** The layout of a basic stat response: the fields by position. *)
Definition basic_stat_layout (session : word4)
    (motd level numplayers maxplayers hostport hostip : bytes) : bytes :=
  [Byte.x00] ++ word4_bytes session
  ++ cstr motd ++ cstr (ascii_bytes "SMP") ++ cstr level
  ++ cstr numplayers ++ cstr maxplayers ++ cstr hostport ++ cstr hostip.

(** A server and a client for the examples. *)
Definition example_server : QueryServer.server :=
  {| QueryServer.addr := str_of_string "0.0.0.0";
     QueryServer.port := 25565;
     QueryServer.conf_motd := str_of_string "A Minecraft Server";
     QueryServer.conf_level_name := str_of_string "world";
     QueryServer.conf_max_players := 20;
     QueryServer.meta_version := str_of_string "1.16.5";
     QueryServer.cache_states := 0 |}.

Definition example_client : string * Z := ("192.0.2.1"%string, 50000).

(** The strings of the server that go into the responses all encode, to the
    given bytes. *)
Definition encodable (srv : QueryServer.server) (motd version level hostip : bytes)
  : Prop :=
  latin1_encode (QueryServer.conf_motd srv) = Ok motd /\
  latin1_encode (QueryServer.meta_version srv) = Ok version /\
  latin1_encode (QueryServer.conf_level_name srv) = Ok level /\
  latin1_encode (QueryServer.addr srv) = Ok hostip.

(** A packed field either succeeded or raised [UnicodeEncodeError]. *)
Definition ok_or_unicode (res : result bytes) : Prop :=
  match res with Ok _ => True | Raise e => e = UnicodeEncodeError end.

End Request.

(** ** [PyMineAPI]: entity ids and plugin configuration *)

Module PyMineAPI.

(** [eid]: [self.eid_current += 1; return self.eid_current].  The counter is
    the state; the result is the id handed out and the counter afterwards. *)
Definition eid (eid_current : Z) : Z * Z :=
  let eid_current := eid_current + 1 in
  (eid_current, eid_current).

(** [n] calls of [eid] in a row: the ids in the order handed out. *)
Fixpoint eid_calls (n : nat) (eid_current : Z) : list Z * Z :=
  match n with
  | O => ([], eid_current)
  | S n' =>
      let '(id, eid_current) := eid eid_current in
      let '(ids, eid_current) := eid_calls n' eid_current in
      (id :: ids, eid_current)
  end.

(** What [yaml.safe_load] can return, as far as [load_plugin_config] tells
    values apart: [None], strings, dicts (in document order) and the rest. *)
Local Unset Elimination Schemes.
Inductive yaml : Type :=
| YNull
| YBool (b : bool)
| YInt (z : Z)
| YStr (s : str)
| YOther (repr : string)          (* floats, dates, binary data *)
| YSeq (items : list yaml)
| YMap (entries : list (yaml * yaml)).
Local Set Elimination Schemes.

(** The outcome of opening [plugin.yml] and parsing it. *)
Inductive loaded : Type :=
| OpenFailed                      (* [open] or [read] raised [OSError] *)
| ParseFailed                     (* [yaml.YAMLError] *)
| Parsed (doc : yaml).

Inductive config_error : Type :=
| OSError                         (* not caught: leaves the function as it is *)
| ConfigValueError (message : string).

Definition is_key (name : str) (key : yaml) : bool :=
  match key with
  | YStr s => bool_decide (s = name)
  | _ => false
  end.

(** [conf.get(name)]: [None] when the key is missing. *)
Fixpoint dict_get (entries : list (yaml * yaml)) (name : str) : yaml :=
  match entries with
  | [] => YNull
  | (key, value) :: entries' =>
      if is_key name key then value else dict_get entries' name
  end.

Definition is_None (v : yaml) : bool :=
  match v with YNull => true | _ => false end.

(** [isinstance(v, str)] *)
Definition is_str (v : yaml) : bool :=
  match v with YStr _ => true | _ => false end.

(** [value == ""] *)
Definition is_empty_str (v : yaml) : bool :=
  match v with YStr [] => true | _ => false end.

(** [load_plugin_config], from the outcome of reading the file on.  The
    messages are written without their quotation marks. *)
Definition load_plugin_config (file : loaded)
  : config_error + list (yaml * yaml) :=
  match file with
  | OpenFailed => inl OSError
  | ParseFailed => inl (ConfigValueError "Failed to parse plugin.yml")
  | Parsed (YMap conf) =>
      if negb (is_None (dict_get conf (str_of_string "git_url")))
         && negb (is_str (dict_get conf (str_of_string "git_url")))
      then inl (ConfigValueError "Value git_url must be of type str")
      else if negb (is_None (dict_get conf (str_of_string "module_folder")))
              && negb (is_str (dict_get conf (str_of_string "module_folder")))
      then inl (ConfigValueError "Value module_folder must be of type str")
      else
        inr (map (fun '(key, value) =>
                    (key, if is_empty_str value then YNull else value)) conf)
  | Parsed _ => inl (ConfigValueError "plugin.yml must contain a dict")
  end.

(** [s.rstrip(chars)]: the longest end of [s] made of characters of [chars]
    is removed. *)
Fixpoint drop_while (p : N -> bool) (s : str) : str :=
  match s with
  | [] => []
  | c :: s' => if p c then drop_while p s' else s
  end.

Definition str_rstrip (chars s : str) : str :=
  rev (drop_while (fun c => existsb (N.eqb c) chars) (rev s)).

(** [s.replace(old, new)] for one-character [old] and [new]. *)
Definition str_replace_char (old new : N) (s : str) : str :=
  map (fun c => if N.eqb c old then new else c) s.

(** The module path [load_plugin] imports for a plugin that is a [.py]
    file: [root.rstrip(".py").replace("\\", "/").replace("/", ".")]. *)
Definition plugin_file_module_path (root : str) : str :=
  str_replace_char 47 46
    (str_replace_char 92 47 (str_rstrip (str_of_string ".py") root)).

End PyMineAPI.

(** * Properties *)

(** ** Slices and bytes *)

Section SliceFacts.

Context {A : Type}.
Implicit Types l : list A.

Lemma slice_index_nonneg len i :
  0 <= i -> 0 <= len -> slice_index len i = Z.min i len.
Proof.
  intros Hi _. unfold slice_index.
  destruct (Z.ltb_spec i 0); [lia | reflexivity].
Qed.

(** A slice with non-negative bounds is "skip [a], then take at most [n]". *)
Lemma py_slice_take_drop l a n :
  0 <= a -> 0 <= n ->
  py_slice l a (a + n) = firstn (Z.to_nat n) (skipn (Z.to_nat a) l).
Proof.
  intros Ha Hn. unfold py_slice.
  rewrite !slice_index_nonneg by lia.
  destruct (Z.le_gt_cases a (Z.of_nat (length l))) as [Hle | Hgt].
  - rewrite (Z.min_l a) by lia.
    destruct (Z.le_gt_cases (a + n) (Z.of_nat (length l))) as [Hle' | Hgt'].
    + rewrite Z.min_l by lia. do 2 f_equal. lia.
    + rewrite Z.min_r by lia.
      rewrite (firstn_all2 (n := Z.to_nat n)) by (rewrite length_skipn; lia).
      apply firstn_all2. rewrite length_skipn. lia.
  - rewrite !Z.min_r by lia.
    rewrite (skipn_all2 (n := Z.to_nat a)) by lia.
    rewrite skipn_all2 by lia. by rewrite !firstn_nil.
Qed.

Lemma py_slice_from_drop l a :
  0 <= a -> py_slice_from l a = skipn (Z.to_nat a) l.
Proof.
  intros Ha. unfold py_slice_from. rewrite slice_index_nonneg by lia.
  destruct (Z.le_gt_cases a (Z.of_nat (length l))) as [Hle | Hgt].
  - by rewrite Z.min_l by lia.
  - rewrite Z.min_r by lia. rewrite !skipn_all2 by lia. done.
Qed.

Lemma py_slice_length l a n :
  0 <= a -> 0 <= n ->
  Z.of_nat (length (py_slice l a (a + n)))
  = Z.min n (Z.max 0 (Z.of_nat (length l) - a)).
Proof.
  intros Ha Hn. rewrite py_slice_take_drop by done.
  rewrite length_firstn, length_skipn. lia.
Qed.

End SliceFacts.

Lemma bytes_eqb_eq (a b : bytes) : bytes_eqb a b = true <-> a = b.
Proof.
  revert b. induction a as [| x a IH]; intros [| y b]; simpl; try easy.
  rewrite andb_true_iff, IH. split.
  - intros [Hxy ->]. by rewrite (Byte.byte_dec_bl _ _ Hxy).
  - intros [= -> ->]. split; [by apply Byte.byte_dec_lb | done].
Qed.

(** ** The cursor: [read] *)

Section ReadFacts.

Import QueryBuffer.

(** [read(n)] never raises: for a cursor at a non-negative position and a
    non-negative length it returns the slice and moves the position by [n],
    whatever is left in the buffer. *)
Lemma read_some_eq (q : t) (n : Z) :
  0 <= pos q -> 0 <= n ->
  read (Some n) q
  = (Ok (firstn (Z.to_nat n) (skipn (Z.to_nat (pos q)) (buf q))),
     {| buf := buf q; pos := pos q + n |}).
Proof.
  intros Hp Hn. unfold read. by rewrite py_slice_take_drop.
Qed.

(** [read()] returns the rest of the buffer and adds the length of the whole
    buffer to the position. *)
Lemma read_none_eq (q : t) :
  0 <= pos q ->
  read None q
  = (Ok (skipn (Z.to_nat (pos q)) (buf q)),
     {| buf := buf q; pos := pos q + Z.of_nat (length (buf q)) |}).
Proof.
  intros Hp. unfold read. by rewrite py_slice_from_drop.
Qed.

(** After [read()] at a position [p > 0] the position is [p] past the end. *)
Lemma read_none_past_end (q : t) :
  0 < pos q ->
  Z.of_nat (length (buf q)) < pos (snd (read None q)).
Proof. intros Hp. simpl. lia. Qed.

End ReadFacts.

(** C2, as stated, fails: with two bytes left, [read(5)] does not raise; it
    returns the two bytes and moves the position to 5. *)
Lemma read_underrun_counterexample :
  let q := QueryBuffer.init [Byte.x01; Byte.x02] in
  QueryBuffer.remaining q < 5 /\
  ~ (is_raise (fst (QueryBuffer.read (Some 5) q)) = true /\
     QueryBuffer.pos (snd (QueryBuffer.read (Some 5) q)) = QueryBuffer.pos q).
Proof.
  simpl. split; [reflexivity |]. intros [Hraise _]. discriminate Hraise.
Qed.

(** C2, amended: for every cursor at a non-negative position and every
    [n >= 0], [read(n)] does not fail; it returns the bytes from the position
    on, [n] of them when at least [n] remain and all that remain otherwise,
    and moves the position by [n] in both cases. *)
Theorem read_returns_slice_and_advances (q : QueryBuffer.t) (n : Z) :
  0 <= QueryBuffer.pos q -> 0 <= n ->
  exists bs : bytes,
    QueryBuffer.read (Some n) q
    = (Ok bs, QueryBuffer.mk (QueryBuffer.buf q) (QueryBuffer.pos q + n)) /\
    bs = firstn (Z.to_nat n) (skipn (Z.to_nat (QueryBuffer.pos q)) (QueryBuffer.buf q)) /\
    Z.of_nat (length bs) = Z.min n (Z.max 0 (QueryBuffer.remaining q)) /\
    (n <= QueryBuffer.remaining q -> Z.of_nat (length bs) = n).
Proof.
  intros Hp Hn. eexists. split; [by apply read_some_eq |].
  split; [reflexivity |].
  assert (Hlen : Z.of_nat (length (firstn (Z.to_nat n)
                   (skipn (Z.to_nat (QueryBuffer.pos q)) (QueryBuffer.buf q))))
                 = Z.min n (Z.max 0 (QueryBuffer.remaining q))).
  { rewrite length_firstn, length_skipn. unfold QueryBuffer.remaining. lia. }
  split; [exact Hlen |]. intros Hrem. rewrite Hlen. lia.
Qed.

(** The amended C2 at position 1 of a three-byte buffer, reading 2. *)
Lemma read_returns_slice_and_advances_witness :
  exists bs : bytes,
    QueryBuffer.read (Some 2) (QueryBuffer.mk [Byte.x0a; Byte.x0b; Byte.x0c] 1)
    = (Ok bs, QueryBuffer.mk [Byte.x0a; Byte.x0b; Byte.x0c] (1 + 2)) /\
    bs = [Byte.x0b; Byte.x0c] /\
    Z.of_nat (length bs) = 2.
Proof.
  destruct (read_returns_slice_and_advances
              (QueryBuffer.mk [Byte.x0a; Byte.x0b; Byte.x0c] 1) 2)
    as (bs & Hread & Hbs & _ & Hlen); [simpl; lia | lia |].
  exists bs. split; [exact Hread |]. split; [exact Hbs |].
  apply Hlen. unfold QueryBuffer.remaining. simpl. lia.
Defined.

(** C9: at position 1 of a three-byte buffer, [read()] returns the last two
    bytes, and the position it leaves is 4, one past the length of the
    buffer. *)
Theorem read_all_leaves_position_past_end :
  let q := QueryBuffer.mk [Byte.x01; Byte.x02; Byte.x03] 1 in
  QueryBuffer.read None q
  = (Ok [Byte.x02; Byte.x03], QueryBuffer.mk [Byte.x01; Byte.x02; Byte.x03] 4) /\
  QueryBuffer.pos (snd (QueryBuffer.read None q))
  <> Z.of_nat (length (QueryBuffer.buf q)).
Proof. simpl. split; [reflexivity | discriminate]. Qed.

(** ** The magic marker *)

(** C4: decoding the two bytes the magic encoder produces succeeds, with the
    value 0xFEFD = 65277 that the decoder compares against. *)
Theorem unpack_magic_of_pack_magic :
  QueryBuffer.unpack_magic (QueryBuffer.init QueryBuffer.pack_magic)
  = (Ok 65277, QueryBuffer.mk QueryBuffer.pack_magic 2) /\
  struct_unpack BigEndian false 2 QueryBuffer.pack_magic = Ok 0xFEFD.
Proof. split; reflexivity. Qed.

(** ** Null-terminated strings *)

Section StringFacts.

Import QueryBuffer.

Lemma unpack_string_loop_step (fuel : nat) (out : bytes) (q : t) :
  unpack_string_loop (S fuel) out q
  = match read (Some 1) q with
    | (Raise e, q') => Some (Raise e, q')
    | (Ok b, q') =>
        if bytes_eqb b [Byte.x00] then Some (Ok (latin1_decode out), q')
        else unpack_string_loop fuel (out ++ b) q'
    end.
Proof. reflexivity. Qed.

(** Reading one byte in the middle of a buffer. *)
Lemma read_one_at (pre rest : bytes) (b : Byte.byte) :
  read (Some 1) (mk (pre ++ b :: rest) (Z.of_nat (length pre)))
  = (Ok [b], mk (pre ++ b :: rest) (Z.of_nat (length pre) + 1)).
Proof.
  rewrite read_some_eq by (simpl; lia). simpl buf. simpl pos.
  rewrite Nat2Z.id, skipn_app, skipn_all, Nat.sub_diag. reflexivity.
Qed.

(** One byte read at a non-negative position is the empty sequence past the
    end and the byte under the cursor otherwise. *)
Lemma read_one_cases (q : t) :
  0 <= pos q ->
  exists b : bytes,
    read (Some 1) q = (Ok b, mk (buf q) (pos q + 1)) /\
    (b = [] \/ exists c, b = [c] /\ In c (skipn (Z.to_nat (pos q)) (buf q))).
Proof.
  intros Hp. rewrite read_some_eq by lia. eexists. split; [reflexivity |].
  destruct (skipn (Z.to_nat (pos q)) (buf q)) as [| c tl]; [by left |].
  right. exists c. split; [reflexivity | by left].
Qed.

Lemma skipn_succ_incl {A} (l : list A) (n : nat) (a : A) :
  In a (skipn (S n) l) -> In a (skipn n l).
Proof.
  revert l. induction n as [| n IH]; intros [| h tl]; simpl; auto.
Qed.

(** Without a terminator between the read position and the end of the
    buffer the loop of [unpack_string] never leaves: once the cursor is past
    the end every [read(1)] returns the empty bytes, which is not the terminator, and
    the loop goes on.  Whatever the fuel, the run is still in the loop. *)
Lemma unpack_string_loop_diverges (fuel : nat) (out : bytes) (q : t) :
  0 <= pos q ->
  ~ In Byte.x00 (skipn (Z.to_nat (pos q)) (buf q)) ->
  unpack_string_loop fuel out q = None.
Proof.
  revert out q. induction fuel as [| fuel IH]; intros out q Hp Hno; [reflexivity |].
  rewrite unpack_string_loop_step.
  destruct (read_one_cases q Hp) as (b & -> & Hb).
  assert (Hneq : bytes_eqb b [Byte.x00] = false).
  { destruct (bytes_eqb b [Byte.x00]) eqn:E; [| reflexivity].
    apply bytes_eqb_eq in E. subst b.
    destruct Hb as [Hb | (c & [= <-] & Hin)]; [discriminate | contradiction]. }
  rewrite Hneq. apply IH; simpl.
  - lia.
  - intros Hin. apply Hno. apply skipn_succ_incl.
    replace (S (Z.to_nat (pos q))) with (Z.to_nat (pos q + 1)) by lia. exact Hin.
Qed.

(** With a terminator after the bytes [s], none of which is zero, the loop
    returns after [length s + 1] iterations with the decoding of what it had
    collected followed by [s], the terminator excluded, and the cursor just
    behind the terminator. *)
Lemma unpack_string_loop_terminated (s : bytes) :
  forall (fuel : nat) (pre rest out : bytes),
    ~ In Byte.x00 s ->
    (length s < fuel)%nat ->
    unpack_string_loop fuel out
      (mk (pre ++ s ++ Byte.x00 :: rest) (Z.of_nat (length pre)))
    = Some (Ok (latin1_decode (out ++ s)),
            mk (pre ++ s ++ Byte.x00 :: rest)
               (Z.of_nat (length pre) + Z.of_nat (length s) + 1)).
Proof.
  induction s as [| c s IH]; intros fuel pre rest out Hno Hfuel.
  - destruct fuel as [| fuel]; [simpl in Hfuel; lia |].
    simpl app. rewrite unpack_string_loop_step, read_one_at. simpl.
    rewrite app_nil_r. do 3 f_equal. lia.
  - destruct fuel as [| fuel]; [simpl in Hfuel; lia |].
    simpl app. rewrite unpack_string_loop_step, read_one_at.
    assert (Hc : c <> Byte.x00) by (intros ->; apply Hno; by left).
    assert (Hneq : bytes_eqb [c] [Byte.x00] = false).
    { destruct (bytes_eqb [c] [Byte.x00]) eqn:E; [| reflexivity].
      apply bytes_eqb_eq in E. congruence. }
    rewrite Hneq.
    specialize (IH fuel (pre ++ [c]) rest (out ++ [c])).
    rewrite <- !app_assoc in IH. simpl app in IH.
    rewrite length_app in IH. simpl length in IH.
    replace (Z.of_nat (length pre) + 1) with (Z.of_nat (length pre + 1)) by lia.
    rewrite IH.
    + do 3 f_equal. simpl length. lia.
    + intros Hin. apply Hno. by right.
    + simpl in Hfuel. lia.
Qed.

(** The Latin-1 codec on strings of one-byte characters. *)
Lemma latin1_encode_ok (s : str) :
  Forall (fun c => (c < 256)%N) s ->
  exists bs, latin1_encode s = Ok bs /\ latin1_decode bs = s.
Proof.
  induction 1 as [| c s Hc _ (bs & Henc & Hdec)]; [by exists [] |].
  destruct (Byte.of_N c) as [b |] eqn:Hb.
  - exists (b :: bs). simpl. rewrite Hb, Henc. split; [reflexivity |].
    simpl. rewrite Hdec. f_equal. by apply Byte.to_of_N.
  - apply Byte.of_N_None_iff in Hb. lia.
Qed.

Lemma latin1_decode_zero (bs : bytes) :
  In Byte.x00 bs -> In 0%N (latin1_decode bs).
Proof.
  intros Hin. unfold latin1_decode.
  change 0%N with (Byte.to_N Byte.x00). by apply in_map.
Qed.

End StringFacts.

(** C3: on the three bytes [b"abc"], which hold no terminator, decoding a
    null-terminated string has not returned after any number of iterations:
    it neither yields a value nor raises. *)
Theorem unpack_string_without_terminator_loops :
  forall fuel : nat,
    QueryBuffer.unpack_string fuel (QueryBuffer.init [Byte.x61; Byte.x62; Byte.x63])
    = None.
Proof.
  intros fuel. unfold QueryBuffer.unpack_string.
  apply unpack_string_loop_diverges; simpl; [lia |].
  intros [H | [H | [H | []]]]; discriminate H.
Qed.

(** C8: for every string of characters below 256 none of which is the null
    character, [pack_string] succeeds and [unpack_string] on its output
    returns the string, leaving the cursor behind the terminator. *)
Theorem unpack_string_of_pack_string (s : str) :
  Forall (fun c => (0 < c < 256)%N) s ->
  exists bs : bytes,
    QueryBuffer.pack_string (PyStr s) = Ok bs /\
    forall fuel : nat,
      (length s < fuel)%nat ->
      QueryBuffer.unpack_string fuel (QueryBuffer.init bs)
      = Some (Ok s, QueryBuffer.mk bs (Z.of_nat (length s) + 1)).
Proof.
  intros Hs.
  destruct (latin1_encode_ok s) as (bs & Henc & Hdec).
  { eapply Forall_impl; [exact Hs |]. simpl. intros c Hc. lia. }
  exists (bs ++ [Byte.x00]). split.
  { unfold QueryBuffer.pack_string. simpl py_str. by rewrite Henc. }
  intros fuel Hfuel.
  assert (Hlen : length bs = length s).
  { rewrite <- Hdec. unfold latin1_decode. by rewrite length_map. }
  assert (Hno : ~ In Byte.x00 bs).
  { intros Hin. apply latin1_decode_zero in Hin. rewrite Hdec in Hin.
    rewrite Forall_forall in Hs. apply list_elem_of_In in Hin.
    specialize (Hs _ Hin). lia. }
  pose proof (unpack_string_loop_terminated bs fuel [] [] [] Hno) as Hloop.
  cbn [app length] in Hloop. change (Z.of_nat 0) with 0 in Hloop.
  unfold QueryBuffer.unpack_string, QueryBuffer.init.
  rewrite Hloop by lia. cbn [app]. rewrite Hdec, Hlen. reflexivity.
Qed.

(** C8 on a four-character string with a character above 127. *)
Lemma unpack_string_of_pack_string_witness :
  exists bs : bytes,
    QueryBuffer.pack_string (PyStr [77%N; 105%N; 110%N; 233%N]) = Ok bs /\
    QueryBuffer.unpack_string 5 (QueryBuffer.init bs)
    = Some (Ok [77%N; 105%N; 110%N; 233%N], QueryBuffer.mk bs (4 + 1)).
Proof.
  destruct (unpack_string_of_pack_string [77%N; 105%N; 110%N; 233%N])
    as (bs & Hpack & Hunpack).
  { repeat constructor. }
  exists bs. split; [exact Hpack |]. apply (Hunpack 5%nat). simpl. lia.
Defined.

(** ** Fixed-width integers *)

Section StructFacts.

Lemma byte_val_range (b : Byte.byte) : 0 <= byte_val b < 256.
Proof.
  unfold byte_val. pose proof (Byte.to_N_bounded b). lia.
Qed.

Lemma byte_of_Z_val (k : Z) (b : Byte.byte) : byte_of_Z (k * 256 + byte_val b) = b.
Proof.
  unfold byte_of_Z.
  rewrite Z.add_comm, Z_mod_plus_full.
  rewrite Z.mod_small by apply byte_val_range.
  unfold byte_val. rewrite N2Z.id, Byte.of_to_N. reflexivity.
Qed.

Lemma unsigned_be_snoc (bs : bytes) (b : Byte.byte) :
  unsigned_be (bs ++ [b]) = unsigned_be bs * 256 + byte_val b.
Proof. unfold unsigned_be. by rewrite fold_left_app. Qed.

Lemma unsigned_be_range (bs : bytes) :
  0 <= unsigned_be bs < 256 ^ Z.of_nat (length bs).
Proof.
  induction bs as [| b bs IH] using rev_ind; [unfold unsigned_be; simpl; lia |].
  rewrite unsigned_be_snoc, length_app. simpl length.
  rewrite Nat2Z.inj_add, Z.pow_add_r by lia.
  pose proof (byte_val_range b). change (256 ^ Z.of_nat 1) with 256. nia.
Qed.

(** Writing a number read from [bs] back on as many bytes gives [bs]. *)
Lemma bytes_be_unsigned_be (bs : bytes) :
  bytes_be (length bs) (unsigned_be bs) = bs.
Proof.
  induction bs as [| b bs IH] using rev_ind; [reflexivity |].
  rewrite length_app, Nat.add_comm. simpl.
  rewrite unsigned_be_snoc, byte_of_Z_val.
  rewrite Z.div_add_l by lia.
  rewrite (Z.div_small (byte_val b)) by apply byte_val_range.
  rewrite Z.add_0_r, IH. reflexivity.
Qed.

Lemma to_signed_range (u : Z) :
  0 <= u < 2 ^ 32 -> - 2 ^ 31 <= to_signed 32 u < 2 ^ 31.
Proof.
  intros Hu. unfold to_signed. change (32 - 1) with 31.
  destruct (Z.ltb_spec u (2 ^ 31)); lia.
Qed.

Lemma to_signed_mod (u : Z) :
  0 <= u < 2 ^ 32 -> to_signed 32 u mod 2 ^ 32 = u.
Proof.
  intros Hu. unfold to_signed. change (32 - 1) with 31.
  destruct (Z.ltb_spec u (2 ^ 31)).
  - apply Z.mod_small. lia.
  - rewrite <- (Z.mod_small u (2 ^ 32)) at 2 by lia.
    replace (u - 2 ^ 32) with (u + (-1) * 2 ^ 32) by lia.
    apply Z_mod_plus_full.
Qed.

(** Packing the 32-bit integer read from four bytes gives these bytes. *)
Lemma pack_int32_word4_int (w : Request.word4) :
  QueryBuffer.pack_int32 (Request.word4_int w) = Ok (Request.word4_bytes w).
Proof.
  unfold QueryBuffer.pack_int32, struct_pack, Request.word4_int.
  pose proof (unsigned_be_range (Request.word4_bytes w)) as Hr.
  assert (Hlen : length (Request.word4_bytes w) = 4%nat)
    by (destruct w as [[[b0 b1] b2] b3]; reflexivity).
  rewrite Hlen in Hr. change (256 ^ Z.of_nat 4) with (2 ^ 32) in Hr.
  change (8 * Z.of_nat 4) with 32. change (32 - 1) with 31.
  pose proof (to_signed_range _ Hr) as Hs.
  destruct (Z.leb_spec (- 2 ^ 31) (to_signed 32 (unsigned_be (Request.word4_bytes w))));
    [| lia].
  destruct (Z.ltb_spec (to_signed 32 (unsigned_be (Request.word4_bytes w))) (2 ^ 31));
    [| lia].
  cbn [andb in_order]. rewrite to_signed_mod by exact Hr.
  rewrite <- Hlen at 1. by rewrite bytes_be_unsigned_be.
Qed.

(** [str] of an integer or of a literal is made of one-byte characters. *)
Lemma latin1_encode_str_of_string (s : string) :
  latin1_encode (str_of_string s) = Ok (Request.ascii_bytes s).
Proof.
  unfold str_of_string, Request.ascii_bytes.
  induction s as [| a s IH]; [reflexivity |].
  simpl. rewrite <- Ascii.byte_of_ascii_via_N. by rewrite IH.
Qed.

Lemma pack_string_int (z : Z) :
  QueryBuffer.pack_string (PyInt z) = Ok (Request.cstr (Request.decimal_bytes z)).
Proof.
  unfold QueryBuffer.pack_string. simpl py_str.
  by rewrite latin1_encode_str_of_string.
Qed.

End StructFacts.

(** ** The query handler *)

Section HandlerFacts.

Import QueryBuffer QueryServer Request.

Context {remote : Type} `{Countable remote}.

(** Reading a run of bytes that lies wholly inside the buffer. *)
Lemma read_exact (pre run rest : bytes) :
  read (Some (Z.of_nat (length run)))
       (mk (pre ++ run ++ rest) (Z.of_nat (length pre)))
  = (Ok run, mk (pre ++ run ++ rest) (Z.of_nat (length pre) + Z.of_nat (length run))).
Proof.
  rewrite read_some_eq by (simpl; lia). cbn [buf pos].
  rewrite !Nat2Z.id, skipn_app, skipn_all, Nat.sub_diag. cbn [skipn app].
  change (drop 0 (run ++ rest)) with (run ++ rest).
  rewrite firstn_app, firstn_all, Nat.sub_diag. cbn [firstn].
  by rewrite app_nil_r.
Qed.

Lemma unpack_magic_datagram (type : Byte.byte) (session : word4)
    (tok : option (word4 * bytes)) :
  unpack_magic (init (datagram type session tok))
  = (Ok 65277, mk (datagram type session tok) 2).
Proof.
  unfold unpack_magic, bind, lift, init, datagram.
  pose proof (read_exact [] [Byte.xfe; Byte.xfd]
                ([type] ++ word4_bytes session ++ token_bytes tok)) as Hread.
  cbn [app length] in Hread |- *. change (Z.of_nat 0) with 0 in Hread.
  change (Z.of_nat 2) with 2 in Hread. rewrite Hread. reflexivity.
Qed.

(** The header of a well-formed datagram: the type byte, the session id and
    the token, 0 when the datagram ends after the session id. *)
Lemma unpack_request_datagram (type : Byte.byte) (session : word4)
    (tok : option (word4 * bytes)) :
  unpack_request (mk (datagram type session tok) 2)
  = (Ok (to_signed 8 (byte_val type), word4_int session, token_value tok),
     mk (datagram type session tok)
        (match tok with None => 7 | Some _ => 11 end)).
Proof.
  destruct session as [[[s0 s1] s2] s3].
  unfold unpack_request, unpack_byte, unpack_int32, bind, lift, ret, datagram.
  pose proof (read_exact [Byte.xfe; Byte.xfd] [type]
                (word4_bytes (s0, s1, s2, s3) ++ token_bytes tok)) as Hty.
  cbn [app length word4_bytes] in Hty |- *.
  change (Z.of_nat 2) with 2 in Hty. change (Z.of_nat 1) with 1 in Hty.
  rewrite Hty. clear Hty. cbn [struct_unpack length Nat.eqb in_order].
  pose proof (read_exact [Byte.xfe; Byte.xfd; type] [s0; s1; s2; s3]
                (token_bytes tok)) as Hsid.
  cbn [app length] in Hsid. change (Z.of_nat 3) with 3 in Hsid.
  change (Z.of_nat 4) with 4 in Hsid.
  change (2 + 1) with 3. rewrite Hsid. clear Hsid.
  cbn [struct_unpack length Nat.eqb in_order pos buf].
  rewrite py_slice_from_drop by lia. change (Z.to_nat (3 + 4)) with 7%nat.
  cbn [skipn].
  destruct tok as [[[[[t0 t1] t2] t3] payload] |].
  - cbn [token_bytes word4_bytes app bytes_eqb].
    pose proof (read_exact [Byte.xfe; Byte.xfd; type; s0; s1; s2; s3]
                  [t0; t1; t2; t3] payload) as Htok.
    cbn [app length] in Htok. change (Z.of_nat 7) with 7 in Htok.
    change (Z.of_nat 4) with 4 in Htok. change (3 + 4) with 7.
    rewrite Htok. reflexivity.
  - reflexivity.
Qed.

End HandlerFacts.

Section HandlerTheorems.

Import QueryBuffer QueryServer Request.

Context {remote : Type} `{Countable remote}.

(** A datagram that does not decode changes nothing but the console. *)
Lemma undecodable_request_dropped (srv : server) (r : remote) (q : QueryBuffer.t)
    (st : state remote) :
  is_raise (fst (unpack_magic q)) = true \/
  is_raise (fst (unpack_request (snd (unpack_magic q)))) = true ->
  sent (handle_packet srv r q st) = sent st /\
  challenge_cache (handle_packet srv r q st) = challenge_cache st.
Proof.
  unfold handle_packet.
  destruct (unpack_magic q) as [[m | e] q1]; simpl.
  - intros [Hm | Hr]; [discriminate |].
    destruct (unpack_request q1) as [[[[ty sid] tokv] | e] q2]; simpl in Hr;
      [discriminate | done].
  - intros _. by destruct e.
Qed.

(** The stat branch: with the stored token equal to the request's, the four
    bytes behind the token select the response. *)
Lemma stat_request_selects (srv : server) (r : remote) (st : state remote)
    (session : word4) (tok : option (word4 * bytes)) :
  challenge_cache st !! r = Some (token_value tok) ->
  handle_packet srv r (init (datagram Byte.x00 session tok)) st
  = match (if bytes_eqb (firstn 4 (payload tok))
                        [Byte.x00; Byte.x00; Byte.x00; Byte.x00]
           then full_stat srv 0 (word4_int session)
           else basic_stat srv 0 (word4_int session)) with
    | Ok out => send out r st
    | Raise e => log (Error_exception e) st
    end.
Proof.
  intros Hcache. unfold handle_packet.
  rewrite unpack_magic_datagram, unpack_request_datagram.
  change (to_signed 8 (byte_val Byte.x00)) with 0.
  change (0 =? 9) with false. change (0 =? 0) with true. cbn iota.
  rewrite bool_decide_eq_true_2 by exact Hcache. cbn [negb].
  assert (Hfull : wants_full_stat
                    (mk (datagram Byte.x00 session tok)
                        (match tok with None => 7 | Some _ => 11 end))
                  = bytes_eqb (firstn 4 (payload tok))
                              [Byte.x00; Byte.x00; Byte.x00; Byte.x00]).
  { unfold wants_full_stat. cbn [buf pos].
    destruct session as [[[s0 s1] s2] s3].
    destruct tok as [[[[[t0 t1] t2] t3] p] |].
    - rewrite py_slice_take_drop by lia. reflexivity.
    - rewrite py_slice_take_drop by lia. reflexivity. }
  rewrite Hfull. reflexivity.
Qed.

(** C5: a stat request from a remote that has no session, or whose stored
    token differs from the token of the request (0 when the request carries
    none), leaves the datagrams sent and the session map as they were. *)
Theorem stat_without_matching_token_dropped (srv : server) (r : remote)
    (st : state remote) (session : word4) (tok : option (word4 * bytes)) :
  challenge_cache st !! r = None \/
  (exists T, challenge_cache st !! r = Some T /\ T <> token_value tok) ->
  let st' := handle_packet srv r (init (datagram Byte.x00 session tok)) st in
  sent st' = sent st /\ challenge_cache st' = challenge_cache st.
Proof.
  intros Hcache. cbv zeta. unfold handle_packet.
  rewrite unpack_magic_datagram, unpack_request_datagram.
  change (to_signed 8 (byte_val Byte.x00)) with 0.
  change (0 =? 9) with false. change (0 =? 0) with true. cbn iota.
  rewrite bool_decide_eq_false_2; [done |].
  intros Heq. destruct Hcache as [Hnone | (T & HT & Hne)]; congruence.
Qed.

(** The handshake branch as one equation. *)
Lemma handshake_request_eq (srv : server) (r : remote) (st : state remote)
    (session : word4) (tok : option (word4 * bytes)) :
  handle_packet srv r (init (datagram Byte.x09 session tok)) st
  = send ([Byte.x09] ++ word4_bytes session
          ++ cstr (decimal_bytes (token_value tok))) r
      (set_challenge r (token_value tok) st).
Proof.
  unfold handle_packet.
  rewrite unpack_magic_datagram, unpack_request_datagram.
  change (to_signed 8 (byte_val Byte.x09)) with 9.
  change (9 =? 9) with true. cbn iota.
  unfold handshake_response. cbn [concat_results].
  rewrite pack_int32_word4_int, pack_string_int.
  change (pack_byte 9) with (Ok (A := bytes) [Byte.x09]).
  cbn [result_bind]. by rewrite app_nil_r.
Qed.

(** C7: a handshake stores the received token for the remote, whatever was
    stored before, and answers with the type byte 9, the four session id
    bytes of the request and the decimal numeral of the token followed by a
    null byte. *)
Theorem handshake_stores_token_and_replies (srv : server) (r : remote)
    (st : state remote) (session : word4) (tok : option (word4 * bytes)) :
  let st' := handle_packet srv r (init (datagram Byte.x09 session tok)) st in
  challenge_cache st' = <[r := token_value tok]> (challenge_cache st) /\
  sent st'
  = sent st
    ++ [([Byte.x09] ++ word4_bytes session
         ++ cstr (decimal_bytes (token_value tok)), r)].
Proof.
  cbv zeta. rewrite handshake_request_eq. split; reflexivity.
Qed.

(** The full stat response when the configured strings encode. *)
Lemma full_stat_eq (srv : server) (session : word4) (motd version level hostip : bytes) :
  latin1_encode (conf_motd srv) = Ok motd ->
  latin1_encode (meta_version srv) = Ok version ->
  latin1_encode (conf_level_name srv) = Ok level ->
  latin1_encode (addr srv) = Ok hostip ->
  full_stat srv 0 (word4_int session)
  = Ok (full_stat_layout session motd version level
          (decimal_bytes (Z.of_nat (cache_states srv)))
          (decimal_bytes (conf_max_players srv))
          (decimal_bytes (port srv)) hostip).
Proof.
  intros Hmotd Hversion Hlevel Hip.
  unfold full_stat, pack_literal, full_stat_layout. cbn [concat_results].
  rewrite !pack_string_int, pack_int32_word4_int.
  unfold pack_string. cbn [py_str].
  rewrite Hmotd, Hversion, Hlevel, Hip, !latin1_encode_str_of_string.
  change (pack_byte 0) with (Ok (A := bytes) [Byte.x00]).
  cbn [result_bind]. unfold cstr. rewrite app_nil_r.
  by rewrite <- !app_assoc.
Qed.

(** The basic stat response when the configured strings encode. *)
Lemma basic_stat_eq (srv : server) (session : word4) (motd level hostip : bytes) :
  latin1_encode (conf_motd srv) = Ok motd ->
  latin1_encode (conf_level_name srv) = Ok level ->
  latin1_encode (addr srv) = Ok hostip ->
  basic_stat srv 0 (word4_int session)
  = Ok (basic_stat_layout session motd level
          (decimal_bytes (Z.of_nat (cache_states srv)))
          (decimal_bytes (conf_max_players srv))
          (decimal_bytes (port srv)) hostip).
Proof.
  intros Hmotd Hlevel Hip.
  unfold basic_stat, pack_literal, basic_stat_layout. cbn [concat_results].
  rewrite !pack_string_int, pack_int32_word4_int.
  unfold pack_string. cbn [py_str].
  rewrite Hmotd, Hlevel, Hip, !latin1_encode_str_of_string.
  change (pack_byte 0) with (Ok (A := bytes) [Byte.x00]).
  cbn [result_bind]. unfold cstr. rewrite app_nil_r.
  by rewrite <- !app_assoc.
Qed.

(** A configured string with a character above 255 makes both responses
    fail: nothing is sent. *)
Lemma stat_not_encodable (srv : server) (session : word4) :
  latin1_encode (conf_motd srv) = Raise UnicodeEncodeError ->
  full_stat srv 0 (word4_int session) = Raise UnicodeEncodeError /\
  basic_stat srv 0 (word4_int session) = Raise UnicodeEncodeError.
Proof.
  intros Hmotd. unfold full_stat, basic_stat, pack_literal. cbn [concat_results].
  assert (Hpack : pack_string (PyStr (conf_motd srv)) = Raise UnicodeEncodeError)
    by (unfold pack_string; cbn [py_str]; by rewrite Hmotd).
  rewrite pack_int32_word4_int, Hpack.
  change (pack_byte 0) with (Ok (A := bytes) [Byte.x00]).
  split; reflexivity.
Qed.

End HandlerTheorems.

(** C5 after a handshake that stored the token 7: a stat request carrying
    the token 8 is dropped. *)
Lemma stat_without_matching_token_dropped_witness :
  let st := {| QueryServer.challenge_cache := {[ Request.example_client := 7 ]};
               QueryServer.sent := []; QueryServer.console := [] |} in
  let request :=
    Request.datagram Byte.x00 (Byte.x00, Byte.x00, Byte.x00, Byte.x01)
      (Some ((Byte.x00, Byte.x00, Byte.x00, Byte.x08), [])) in
  let st' := QueryServer.handle_packet Request.example_server Request.example_client
               (QueryBuffer.init request) st in
  QueryServer.sent st' = [] /\
  QueryServer.challenge_cache st' = {[ Request.example_client := 7 ]}.
Proof.
  intros st request.
  apply (stat_without_matching_token_dropped Request.example_server
           Request.example_client st
           (Byte.x00, Byte.x00, Byte.x00, Byte.x01)
           (Some ((Byte.x00, Byte.x00, Byte.x00, Byte.x08), []))).
  right. exists 7. split; [apply lookup_singleton_eq | vm_compute; discriminate].
Defined.

(** C6: a stat request with the stored token and four zero bytes behind it
    is answered with a full stat whose bytes behind the second padding marker
    are [b"Penis\x00\x00"]: read with [unpack_string], the player section
    holds the five-character name [Penis] before its terminator, so it is
    not of length zero; the source comments the literal as "this means no
    players online". *)
Theorem full_stat_player_section_holds_a_name :
  let st := {| QueryServer.challenge_cache := {[ Request.example_client := 7 ]};
               QueryServer.sent := []; QueryServer.console := [] |} in
  let request :=
    Request.datagram Byte.x00 (Byte.x00, Byte.x00, Byte.x00, Byte.x01)
      (Some ((Byte.x00, Byte.x00, Byte.x00, Byte.x07),
             [Byte.x00; Byte.x00; Byte.x00; Byte.x00])) in
  let st' := QueryServer.handle_packet Request.example_server Request.example_client
               (QueryBuffer.init request) st in
  exists out : bytes,
    QueryServer.sent st' = [(out, Request.example_client)] /\
    out = firstn (length out - 17) out
          ++ QueryServer.full_stat_player_padding
          ++ [Byte.x50; Byte.x65; Byte.x6e; Byte.x69; Byte.x73; Byte.x00; Byte.x00] /\
    QueryBuffer.unpack_string 6
      (QueryBuffer.init [Byte.x50; Byte.x65; Byte.x6e; Byte.x69; Byte.x73; Byte.x00; Byte.x00])
    = Some (Ok (str_of_string "Penis"),
            QueryBuffer.mk [Byte.x50; Byte.x65; Byte.x6e; Byte.x69; Byte.x73; Byte.x00; Byte.x00] 6).
Proof.
  intros st request st'.
  assert (Hsel : st' = QueryServer.send
                         (Request.full_stat_layout
                            (Byte.x00, Byte.x00, Byte.x00, Byte.x01)
                            (Request.ascii_bytes "A Minecraft Server")
                            (Request.ascii_bytes "1.16.5")
                            (Request.ascii_bytes "world")
                            (Request.decimal_bytes 0) (Request.decimal_bytes 20)
                            (Request.decimal_bytes 25565)
                            (Request.ascii_bytes "0.0.0.0"))
                         Request.example_client st).
  { unfold st', request. rewrite stat_request_selects by apply lookup_singleton_eq.
    cbn [Request.payload firstn bytes_eqb Byte.eqb andb].
    rewrite (full_stat_eq Request.example_server _
               (Request.ascii_bytes "A Minecraft Server")
               (Request.ascii_bytes "1.16.5") (Request.ascii_bytes "world")
               (Request.ascii_bytes "0.0.0.0"));
      try apply latin1_encode_str_of_string.
    reflexivity. }
  rewrite Hsel. eexists. split; [reflexivity |]. split; vm_compute; reflexivity.
Qed.

(** ** The packet classes *)

Section PacketFacts.

Import Packet.
Local Open Scope string_scope.

Context {chunk : Type}.



End PacketFacts.

(** ** The chunk data packet *)

Section MaskFacts.

(** The bit that [1 << y] sets. *)
Lemma testbit_shiftl_1 (y i : Z) :
  0 <= y -> Z.testbit (Z.shiftl 1 y) i = (y =? i).
Proof.
  intros Hy. rewrite Z.shiftl_1_l. by apply Z.pow2_bits_eqb.
Qed.







End MaskFacts.

Section ChunkDataFacts.

Import ChunkPackets.

Context {section nbt_tag : Type}.
Variable pack_int : Z -> bytes.
Variable pack_bool : bool -> bytes.
Variable pack_varint : Z -> bytes.
Variable pack_nbt_compound : string -> list nbt_tag -> bytes.
Variable pack_chunk_section_blocks : section -> bytes.

Implicit Types items : list (Z * section).

(** The loop, started from any mask and buffer. *)
Lemma encode_loop_from items (mask : Z) (buffer : bytes) :
  0 <= mask ->
  exists mask',
    fold_left (encode_step pack_chunk_section_blocks) items (mask, buffer)
    = (mask', buffer ++ blocks_of pack_chunk_section_blocks (sent_sections items)) /\
    0 <= mask' /\
    forall i, Z.testbit mask' i = true <->
              Z.testbit mask i = true \/ (0 <= i /\ In i (map fst items)).
Proof.
  revert mask buffer. induction items as [| [y sec] items IH]; intros mask buffer Hmask.
  - exists mask. simpl. rewrite app_nil_r. repeat split; [done | tauto | ].
    intros [? | [_ []]]. done.
  - cbn [fold_left encode_step]. unfold sent_sections. cbn [List.filter fst].
    destruct (Z.leb_spec 0 y) as [Hy | Hy].
    + destruct (IH (Z.lor mask (Z.shiftl 1 y))
                   (Buffer_write buffer (pack_chunk_section_blocks sec)))
        as (mask' & Hfold & Hpos & Hbits).
      { apply Z.lor_nonneg. split; [done |]. apply Z.shiftl_nonneg. lia. }
      exists mask'. split; [| split; [done |]].
      * rewrite Hfold. unfold Buffer_write, blocks_of. cbn [map concat snd].
        by rewrite <- app_assoc.
      * intros i. rewrite Hbits, Z.lor_spec, orb_true_iff, testbit_shiftl_1 by done.
        cbn [map fst In]. rewrite Z.eqb_eq. intuition lia.
    + destruct (IH mask buffer Hmask) as (mask' & Hfold & Hpos & Hbits).
      exists mask'. split; [exact Hfold | split; [done |]].
      intros i. rewrite Hbits. cbn [map fst In]. intuition lia.
Qed.

(** What the loop of [encode] leaves: a mask whose set bits are the
    non-negative section indices, and the block payloads of these sections
    in the order the dict yields them. *)
Lemma encode_sections_eq items :
  exists mask,
    encode_sections pack_chunk_section_blocks items
    = (mask, blocks_of pack_chunk_section_blocks (sent_sections items)) /\
    0 <= mask /\
    forall i, Z.testbit mask i = true <-> 0 <= i /\ In i (map fst items).
Proof.
  destruct (encode_loop_from items 0 []) as (mask & Hfold & Hpos & Hbits); [lia |].
  exists mask. split; [exact Hfold | split; [exact Hpos |]].
  intros i. rewrite Hbits, Z.bits_0. intuition discriminate.
Qed.




End ChunkDataFacts.



(** ** Worked examples *)

Example read_short_example :
  QueryBuffer.read (Some 5) (QueryBuffer.init [Byte.x01; Byte.x02])
  = (Ok [Byte.x01; Byte.x02], QueryBuffer.mk [Byte.x01; Byte.x02] 5).
Proof. reflexivity. Qed.

Example pack_string_int_example :
  QueryBuffer.pack_string (PyInt (-1205))
  = Ok [Byte.x2d; Byte.x31; Byte.x32; Byte.x30; Byte.x35; Byte.x00].
Proof. reflexivity. Qed.

Example pack_string_not_latin1_example :
  QueryBuffer.pack_string (PyStr [8364%N]) = Raise UnicodeEncodeError.
Proof. reflexivity. Qed.

Example unpack_int32_example :
  fst (QueryBuffer.unpack_int32
         (QueryBuffer.init [Byte.xff; Byte.xff; Byte.xff; Byte.xfe]))
  = Ok (-2).
Proof. reflexivity. Qed.

Example pack_int32_example :
  QueryBuffer.pack_int32 (-2) = Ok [Byte.xff; Byte.xff; Byte.xff; Byte.xfe].
Proof. reflexivity. Qed.

Example unpack_short_example :
  fst (QueryBuffer.unpack_short (QueryBuffer.init [Byte.x01; Byte.x80]))
  = Ok (-32767).
Proof. reflexivity. Qed.

Example unpack_string_example :
  option_map fst
    (QueryBuffer.unpack_string 10
       (QueryBuffer.init [Byte.x41; Byte.x42; Byte.x00; Byte.x43]))
  = Some (Ok [65%N; 66%N]).
Proof. reflexivity. Qed.

Example unpack_magic_wrong_example :
  fst (QueryBuffer.unpack_magic (QueryBuffer.init [Byte.xfe; Byte.xfe]))
  = Raise ValueError.
Proof. reflexivity. Qed.

Example unpack_magic_short_example :
  fst (QueryBuffer.unpack_magic (QueryBuffer.init [Byte.xfe])) = Raise StructError.
Proof. reflexivity. Qed.

(** A handshake carrying the token 7, then a basic stat with the same token. *)
Example handshake_then_basic_stat_example :
  let st0 := {| QueryServer.challenge_cache := ∅;
                QueryServer.sent := []; QueryServer.console := [] |} in
  let session := (Byte.x00, Byte.x00, Byte.x04, Byte.xd2) in
  let token := (Byte.x00, Byte.x00, Byte.x00, Byte.x07) in
  let st1 := QueryServer.handle_packet Request.example_server Request.example_client
               (QueryBuffer.init (Request.datagram Byte.x09 session (Some (token, []))))
               st0 in
  let st2 := QueryServer.handle_packet Request.example_server Request.example_client
               (QueryBuffer.init (Request.datagram Byte.x00 session (Some (token, []))))
               st1 in
  QueryServer.challenge_cache st1 !! Request.example_client = Some 7 /\
  QueryServer.sent st1
  = [([Byte.x09; Byte.x00; Byte.x00; Byte.x04; Byte.xd2; Byte.x37; Byte.x00],
      Request.example_client)] /\
  exists out,
    QueryServer.sent st2 = QueryServer.sent st1 ++ [(out, Request.example_client)] /\
    out = Request.basic_stat_layout session
            (Request.ascii_bytes "A Minecraft Server") (Request.ascii_bytes "world")
            (Request.ascii_bytes "0") (Request.ascii_bytes "20")
            (Request.ascii_bytes "25565") (Request.ascii_bytes "0.0.0.0").
Proof.
  intros st0 session token st1 st2.
  assert (H1 : QueryServer.challenge_cache st1 = {[ Request.example_client := 7 ]}
               /\ QueryServer.sent st1
                  = [([Byte.x09; Byte.x00; Byte.x00; Byte.x04; Byte.xd2; Byte.x37;
                       Byte.x00], Request.example_client)]).
  { unfold st1. rewrite handshake_request_eq. split; reflexivity. }
  destruct H1 as [Hc Hs]. split; [rewrite Hc; apply lookup_singleton_eq |].
  split; [exact Hs |].
  eexists. split; [| reflexivity].
  unfold st2.
  rewrite (stat_request_selects Request.example_server Request.example_client st1
             session (Some (token, []))) by (rewrite Hc; apply lookup_singleton_eq).
  cbn [Request.payload firstn bytes_eqb].
  rewrite (basic_stat_eq Request.example_server session
             (Request.ascii_bytes "A Minecraft Server") (Request.ascii_bytes "world")
             (Request.ascii_bytes "0.0.0.0"));
    try apply latin1_encode_str_of_string.
  reflexivity.
Qed.

(** * Further properties of the cursor and the fixed-width codecs *)

Section CodecRoundTrips.

Import QueryBuffer.

Lemma byte_val_byte_of_Z (z : Z) : byte_val (byte_of_Z z) = z mod 256.
Proof.
  unfold byte_of_Z, byte_val.
  pose proof (Z.mod_pos_bound z 256 ltac:(lia)) as Hr.
  destruct (Byte.of_N (Z.to_N (z mod 256))) as [b |] eqn:Hb.
  - apply Byte.to_of_N in Hb. rewrite Hb. lia.
  - apply Byte.of_N_None_iff in Hb. lia.
Qed.

Lemma byte_val_inj (a b : Byte.byte) : byte_val a = byte_val b -> a = b.
Proof.
  unfold byte_val. intros Hab. apply N2Z.inj in Hab.
  assert (Some a = Some b) as [= ->]; [| reflexivity].
  by rewrite <- !Byte.of_to_N, Hab.
Qed.

Lemma bytes_be_length (size : nat) (u : Z) : length (bytes_be size u) = size.
Proof.
  revert u. induction size as [| size IH]; intros u; [reflexivity |].
  simpl. rewrite length_app, IH. simpl. lia.
Qed.

(** Reading back the bytes written for [u] gives [u] reduced to the width. *)
Lemma unsigned_be_bytes_be (size : nat) (u : Z) :
  unsigned_be (bytes_be size u) = u mod 256 ^ Z.of_nat size.
Proof.
  revert u. induction size as [| size IH]; intros u.
  - unfold unsigned_be. simpl. by rewrite Z.mod_1_r.
  - cbn [bytes_be]. rewrite unsigned_be_snoc, IH, byte_val_byte_of_Z.
    rewrite Nat2Z.inj_succ, Z.pow_succ_r by lia.
    rewrite (Z.rem_mul_r u 256 (256 ^ Z.of_nat size)) by lia. lia.
Qed.

Lemma to_signed_of_mod (bits z : Z) :
  0 < bits ->
  - 2 ^ (bits - 1) <= z < 2 ^ (bits - 1) ->
  to_signed bits (z mod 2 ^ bits) = z.
Proof.
  intros Hbits Hz. unfold to_signed.
  assert (Hpow : 2 ^ bits = 2 * 2 ^ (bits - 1)).
  { rewrite <- Z.pow_succ_r by lia. f_equal. lia. }
  destruct (Z.le_gt_cases 0 z) as [Hpos | Hneg].
  - rewrite Z.mod_small by lia.
    destruct (Z.ltb_spec z (2 ^ (bits - 1))); lia.
  - replace (z mod 2 ^ bits) with (z + 2 ^ bits).
    + destruct (Z.ltb_spec (z + 2 ^ bits) (2 ^ (bits - 1))); lia.
    + rewrite <- (Z_mod_plus_full z 1 (2 ^ bits)).
      rewrite Z.mod_small by lia. lia.
Qed.

Lemma in_order_involutive (e : endian) (bs : bytes) :
  in_order e (in_order e bs) = bs.
Proof. destruct e; [reflexivity | apply rev_involutive]. Qed.

Lemma in_order_length (e : endian) (bs : bytes) :
  length (in_order e bs) = length bs.
Proof. destruct e; [reflexivity | apply length_rev]. Qed.

(** A signed number that fits the format is packed on [size] bytes, and
    unpacking these bytes gives the number back. *)
Lemma struct_signed_round_trip (e : endian) (size : nat) (z : Z) :
  (0 < size)%nat ->
  - 2 ^ (8 * Z.of_nat size - 1) <= z < 2 ^ (8 * Z.of_nat size - 1) ->
  exists bs,
    struct_pack e true size z = Ok bs /\
    length bs = size /\
    struct_unpack e true size bs = Ok z.
Proof.
  intros Hsize Hz. unfold struct_pack.
  destruct (Z.leb_spec (- 2 ^ (8 * Z.of_nat size - 1)) z); [| lia].
  destruct (Z.ltb_spec z (2 ^ (8 * Z.of_nat size - 1))); [| lia].
  cbn [andb]. eexists. split; [reflexivity |].
  assert (Hlen : length (in_order e (bytes_be size (z mod 2 ^ (8 * Z.of_nat size))))
                 = size) by (by rewrite in_order_length, bytes_be_length).
  split; [exact Hlen |].
  unfold struct_unpack. rewrite Hlen, Nat.eqb_refl, in_order_involutive.
  rewrite unsigned_be_bytes_be.
  replace (256 ^ Z.of_nat size) with (2 ^ (8 * Z.of_nat size)).
  - rewrite Z.mod_mod by (apply Z.pow_nonzero; lia).
    by rewrite to_signed_of_mod by lia.
  - change 256 with (2 ^ 8). rewrite <- Z.pow_mul_r by lia. reflexivity.
Qed.

(** Reading a run of bytes from the start of a buffer. *)
Lemma read_prefix (run rest : bytes) :
  read (Some (Z.of_nat (length run))) (init (run ++ rest))
  = (Ok run, mk (run ++ rest) (Z.of_nat (length run))).
Proof. apply (read_exact [] run rest). Qed.

End CodecRoundTrips.

Section BufferExtras.

Import QueryBuffer.

(** X1: [unpack_int32] after [pack_int32]: every 32-bit signed number is packed
    on four bytes and read back unchanged, the cursor left behind them. *)
Theorem unpack_int32_of_pack_int32 (num : Z) (rest : bytes) :
  - 2 ^ 31 <= num < 2 ^ 31 ->
  exists bs,
    pack_int32 num = Ok bs /\ length bs = 4%nat /\
    unpack_int32 (init (bs ++ rest)) = (Ok num, mk (bs ++ rest) 4).
Proof.
  intros Hnum.
  destruct (struct_signed_round_trip BigEndian 4 num) as (bs & Hpack & Hlen & Hunpack);
    [lia | exact Hnum |].
  exists bs. split; [exact Hpack |]. split; [exact Hlen |].
  unfold unpack_int32, bind, lift.
  pose proof (read_prefix bs rest) as Hread. rewrite Hlen in Hread.
  change (Z.of_nat 4) with 4 in Hread. by rewrite Hread, Hunpack.
Qed.

Lemma unpack_int32_of_pack_int32_witness :
  exists bs,
    pack_int32 (-1205) = Ok bs /\ length bs = 4%nat /\
    unpack_int32 (init (bs ++ [Byte.x2a])) = (Ok (-1205), mk (bs ++ [Byte.x2a]) 4).
Proof. apply (unpack_int32_of_pack_int32 (-1205) [Byte.x2a]). lia. Defined.



(** X3: [unpack_byte] after [pack_byte]. *)
Theorem unpack_byte_of_pack_byte (byte : Z) (rest : bytes) :
  - 128 <= byte < 128 ->
  exists bs,
    pack_byte byte = Ok bs /\ length bs = 1%nat /\
    unpack_byte (init (bs ++ rest)) = (Ok byte, mk (bs ++ rest) 1).
Proof.
  intros Hbyte.
  destruct (struct_signed_round_trip BigEndian 1 byte)
    as (bs & Hpack & Hlen & Hunpack); [lia | exact Hbyte |].
  exists bs. split; [exact Hpack |]. split; [exact Hlen |].
  unfold unpack_byte, bind, lift.
  pose proof (read_prefix bs rest) as Hread. rewrite Hlen in Hread.
  change (Z.of_nat 1) with 1 in Hread. by rewrite Hread, Hunpack.
Qed.

Lemma unpack_byte_of_pack_byte_witness :
  exists bs,
    pack_byte (-3) = Ok bs /\ length bs = 1%nat /\
    unpack_byte (init (bs ++ [Byte.x01])) = (Ok (-3), mk (bs ++ [Byte.x01]) 1).
Proof. apply (unpack_byte_of_pack_byte (-3) [Byte.x01]). lia. Defined.

(** X4: [pack_int32] after [unpack_int32]: any four bytes decode to a number
    that packs to the same four bytes. *)
Theorem pack_int32_of_unpack_int32 (w : Request.word4) (rest : bytes) :
  exists num,
    unpack_int32 (init (Request.word4_bytes w ++ rest))
    = (Ok num, mk (Request.word4_bytes w ++ rest) 4) /\
    - 2 ^ 31 <= num < 2 ^ 31 /\
    pack_int32 num = Ok (Request.word4_bytes w).
Proof.
  exists (Request.word4_int w).
  assert (Hlen : length (Request.word4_bytes w) = 4%nat)
    by (destruct w as [[[b0 b1] b2] b3]; reflexivity).
  split; [| split; [| apply pack_int32_word4_int]].
  - unfold unpack_int32, bind, lift.
    pose proof (read_prefix (Request.word4_bytes w) rest) as Hread.
    rewrite Hlen in Hread. change (Z.of_nat 4) with 4 in Hread. rewrite Hread.
    unfold struct_unpack. rewrite Hlen. reflexivity.
  - apply to_signed_range.
    pose proof (unsigned_be_range (Request.word4_bytes w)) as Hr.
    rewrite Hlen in Hr. exact Hr.
Qed.

(** X5: Two reads in a row return what one read of the summed length returns,
    and leave the cursor in the same place. *)
Theorem read_then_read (q : t) (n m : Z) :
  0 <= pos q -> 0 <= n -> 0 <= m ->
  exists bs1 q1 bs2 q2,
    read (Some n) q = (Ok bs1, q1) /\
    read (Some m) q1 = (Ok bs2, q2) /\
    read (Some (n + m)) q = (Ok (bs1 ++ bs2), q2).
Proof.
  intros Hp Hn Hm. do 4 eexists.
  split; [by apply read_some_eq |].
  split; [apply read_some_eq; simpl; lia |].
  rewrite read_some_eq by lia. cbn [buf pos]. f_equal.
  - f_equal.
    replace (Z.to_nat (n + m)) with (Z.to_nat n + Z.to_nat m)%nat by lia.
    replace (Z.to_nat (pos q + n)) with (Z.to_nat n + Z.to_nat (pos q))%nat by lia.
    rewrite <- (skipn_skipn (Z.to_nat n) (Z.to_nat (pos q)) (buf q)).
    generalize (skipn (Z.to_nat (pos q)) (buf q)). intros l.
    rewrite <- (take_drop (Z.to_nat n) (take (Z.to_nat n + Z.to_nat m) l)).
    rewrite take_take, Nat.min_l by lia.
    by rewrite take_drop_commute.
  - f_equal. lia.
Qed.

Lemma read_then_read_witness :
  exists bs1 q1 bs2 q2,
    read (Some 1) (init [Byte.x0a; Byte.x0b; Byte.x0c]) = (Ok bs1, q1) /\
    read (Some 5) q1 = (Ok bs2, q2) /\
    read (Some (1 + 5)) (init [Byte.x0a; Byte.x0b; Byte.x0c]) = (Ok (bs1 ++ bs2), q2).
Proof.
  apply (read_then_read (init [Byte.x0a; Byte.x0b; Byte.x0c]) 1 5); simpl; lia.
Defined.

(** X6: Bytes written to a buffer are read after the bytes that were still
    unread, provided the cursor is not past the end. *)
Theorem write_then_read_all (q : t) (data : bytes) :
  0 <= pos q <= Z.of_nat (length (buf q)) ->
  exists unread,
    fst (read None q) = Ok unread /\
    fst (read None (snd (write data q))) = Ok (unread ++ data).
Proof.
  intros Hp. exists (skipn (Z.to_nat (pos q)) (buf q)).
  rewrite !read_none_eq by (simpl; lia). cbn [fst snd write buf pos].
  split; [reflexivity |]. f_equal.
  rewrite skipn_app.
  replace (Z.to_nat (pos q) - length (buf q))%nat with 0%nat by lia.
  reflexivity.
Qed.

Lemma write_then_read_all_witness :
  exists unread,
    fst (read None (mk [Byte.x01; Byte.x02] 1)) = Ok unread /\
    fst (read None (snd (write [Byte.x03] (mk [Byte.x01; Byte.x02] 1))))
    = Ok (unread ++ [Byte.x03]).
Proof.
  apply (write_then_read_all (mk [Byte.x01; Byte.x02] 1) [Byte.x03]). simpl. lia.
Defined.

(** With the cursor past the end, written bytes can be skipped: the
    precondition of [write_then_read_all] is needed. *)
Example write_past_end_example :
  fst (read None (snd (write [Byte.x03; Byte.x04] (mk [Byte.x01] 2)))) = Ok [Byte.x04].
Proof. reflexivity. Qed.

End BufferExtras.

Section MagicAndStringExtras.

Import QueryBuffer.

Lemma unsigned_be_two (a b : Byte.byte) :
  unsigned_be [a; b] = byte_val a * 256 + byte_val b.
Proof. unfold unsigned_be. simpl. lia. Qed.

(** The two bytes whose big-endian value is 65277 are FE FD. *)
Lemma magic_bytes_unique (a b : Byte.byte) :
  unsigned_be [a; b] = 65277 -> [a; b] = pack_magic.
Proof.
  rewrite unsigned_be_two. intros Hv.
  pose proof (byte_val_range a). pose proof (byte_val_range b).
  assert (Ha : byte_val a = byte_val Byte.xfe) by (change (byte_val Byte.xfe) with 254; lia).
  assert (Hb : byte_val b = byte_val Byte.xfd) by (change (byte_val Byte.xfd) with 253; lia).
  apply byte_val_inj in Ha, Hb. by subst.
Qed.

(** The outcomes of [unpack_magic], by the two bytes under the cursor. *)
Lemma unpack_magic_result (q : t) :
  0 <= pos q ->
  let next := firstn 2 (skipn (Z.to_nat (pos q)) (buf q)) in
  pos (snd (unpack_magic q)) = pos q + 2 /\
  match fst (unpack_magic q) with
  | Ok magic => magic = 65277 /\ next = pack_magic
  | Raise ValueError => length next = 2%nat /\ next <> pack_magic
  | Raise StructError => (length next < 2)%nat
  | Raise UnicodeEncodeError => False
  end.
Proof.
  intros Hp next. unfold unpack_magic, bind, lift.
  rewrite read_some_eq by lia. change (Z.to_nat 2) with 2%nat. fold next.
  assert (Hlen : (length next <= 2)%nat) by (unfold next; rewrite length_firstn; lia).
  destruct next as [| a [| b [| c l]]]; cbn [length] in Hlen.
  - split; [reflexivity | simpl; lia].
  - split; [reflexivity | simpl; lia].
  - unfold struct_unpack. cbn [length Nat.eqb in_order].
    destruct (Z.eqb_spec (unsigned_be [a; b]) 65277) as [Heq | Hne]; cbn [negb].
    + split; [reflexivity |]. cbn [fst ret]. split; [exact Heq |].
      by apply magic_bytes_unique.
    + split; [reflexivity |]. cbn [fst raise]. split; [reflexivity |].
      intros [= -> ->]. by apply Hne.
  - lia.
Qed.

(** X7: [unpack_magic] in full: it succeeds exactly on the bytes FE FD, raises
    [ValueError] on any other two bytes and [struct.error] when fewer than
    two bytes are left; in every case the cursor has moved by 2. *)
Theorem unpack_magic_cases (q : t) :
  0 <= pos q ->
  let next := firstn 2 (skipn (Z.to_nat (pos q)) (buf q)) in
  pos (snd (unpack_magic q)) = pos q + 2 /\
  match fst (unpack_magic q) with
  | Ok magic => magic = 65277 /\ next = pack_magic
  | Raise ValueError => length next = 2%nat /\ next <> pack_magic
  | Raise StructError => (length next < 2)%nat
  | Raise UnicodeEncodeError => False
  end.
Proof. exact (unpack_magic_result q). Qed.

Lemma unpack_magic_cases_witness :
  let q := mk [Byte.x00; Byte.xfe; Byte.xfd; Byte.x09] 1 in
  pos (snd (unpack_magic q)) = 1 + 2 /\
  fst (unpack_magic q) = Ok 65277.
Proof.
  intros q. destruct (unpack_magic_cases q) as [Hpos Hres]; [simpl; lia |].
  split; [exact Hpos |].
  destruct (fst (unpack_magic q)) as [magic | []] eqn:E.
  - destruct Hres as [-> _]. reflexivity.
  - destruct Hres as [_ Hne]. exfalso. apply Hne. reflexivity.
  - simpl in Hres. lia.
  - destruct Hres.
Defined.

Lemma latin1_encode_length (s : str) (bs : bytes) :
  latin1_encode s = Ok bs -> length bs = length s.
Proof.
  revert bs. induction s as [| c s IH]; intros bs; simpl.
  - by intros [= <-].
  - destruct (Byte.of_N c); [| discriminate].
    destruct (latin1_encode s) as [bs' | e]; [| discriminate].
    intros [= <-]. simpl. f_equal. by apply IH.
Qed.

(** The outcomes of [pack_string] on a [str]. *)
Lemma pack_string_result (s : str) :
  match pack_string (PyStr s) with
  | Ok bs =>
      Forall (fun c => (c < 256)%N) s /\
      exists body, bs = body ++ [Byte.x00] /\ latin1_decode body = s
  | Raise e => e = UnicodeEncodeError /\ Exists (fun c => (256 <= c)%N) s
  end.
Proof.
  unfold pack_string. cbn [py_str].
  induction s as [| c s IH]; cbn [latin1_encode].
  - split; [constructor |]. by exists [].
  - destruct (Byte.of_N c) as [b |] eqn:Hb.
    + pose proof (Byte.to_of_N _ Hb) as Hc. pose proof (Byte.to_N_bounded b) as Hr.
      destruct (latin1_encode s) as [body | e].
      * destruct IH as [Hall (body' & Heq & Hdec)].
        apply app_inj_tail in Heq as [<- _].
        split; [constructor; [lia | exact Hall] |].
        exists (b :: body). split; [reflexivity |]. simpl. by rewrite Hdec, Hc.
      * destruct IH as [-> Hex]. split; [reflexivity |]. by apply Exists_cons_tl.
    + apply Byte.of_N_None_iff in Hb. split; [reflexivity |].
      apply Exists_cons_hd. lia.
Qed.

(** X8: [pack_string] on a [str]: it succeeds exactly when every character is
    below 256, then giving one byte per character and the terminator; any
    other string raises [UnicodeEncodeError]. *)
Theorem pack_string_cases (s : str) :
  match pack_string (PyStr s) with
  | Ok bs =>
      Forall (fun c => (c < 256)%N) s /\
      exists body, bs = body ++ [Byte.x00] /\ latin1_decode body = s
  | Raise e => e = UnicodeEncodeError /\ Exists (fun c => (256 <= c)%N) s
  end.
Proof. exact (pack_string_result s). Qed.

(** X9: Two null-terminated strings in a row are decoded one after the other:
    the first [unpack_string] stops behind the first terminator and the
    second one starts there. *)
Theorem unpack_string_twice (s1 s2 rest : bytes) :
  ~ In Byte.x00 s1 -> ~ In Byte.x00 s2 ->
  let data := s1 ++ Byte.x00 :: s2 ++ Byte.x00 :: rest in
  exists q1 q2,
    unpack_string (S (length s1)) (init data) = Some (Ok (latin1_decode s1), q1) /\
    unpack_string (S (length s2)) q1 = Some (Ok (latin1_decode s2), q2) /\
    pos q2 = Z.of_nat (length s1) + 1 + Z.of_nat (length s2) + 1 /\
    buf q2 = data.
Proof.
  intros H1 H2 data. unfold unpack_string.
  pose proof (unpack_string_loop_terminated s1 (S (length s1)) []
                (s2 ++ Byte.x00 :: rest) [] H1 ltac:(lia)) as Hfirst.
  cbn [app length] in Hfirst. change (Z.of_nat 0) with 0 in Hfirst.
  pose proof (unpack_string_loop_terminated s2 (S (length s2)) (s1 ++ [Byte.x00])
                rest [] H2 ltac:(lia)) as Hsecond.
  rewrite <- app_assoc in Hsecond. cbn [app] in Hsecond.
  rewrite length_app in Hsecond. cbn [length] in Hsecond.
  replace (Z.of_nat (length s1 + 1)) with (0 + Z.of_nat (length s1) + 1) in Hsecond by lia.
  do 2 eexists. split; [exact Hfirst |]. split; [exact Hsecond |].
  cbn [pos buf]. split; [lia | reflexivity].
Qed.

Lemma unpack_string_twice_witness :
  let data := [Byte.x61] ++ Byte.x00 :: [Byte.x62; Byte.x63] ++ Byte.x00 :: [] in
  exists q1 q2,
    unpack_string 2 (init data) = Some (Ok [97%N], q1) /\
    unpack_string 3 q1 = Some (Ok [98%N; 99%N], q2) /\
    pos q2 = 1 + 1 + 2 + 1 /\
    buf q2 = data.
Proof.
  apply (unpack_string_twice [Byte.x61] [Byte.x62; Byte.x63] []).
  - intros [H | []]. discriminate H.
  - intros [H | [H | []]]; discriminate H.
Defined.

(** The numeral of an integer has no null character. *)
Lemma uint_bytes_no_null (d : Decimal.uint) :
  ~ In Byte.x00 (Request.ascii_bytes (NilEmpty.string_of_uint d)).
Proof.
  unfold Request.ascii_bytes.
  induction d; simpl; [tauto | ..]; intros [Hd | Hin]; try discriminate Hd; tauto.
Qed.

Lemma decimal_bytes_no_null (z : Z) : ~ In Byte.x00 (Request.decimal_bytes z).
Proof.
  unfold Request.decimal_bytes, NilZero.string_of_int, NilZero.string_of_uint.
  destruct (Z.to_int z) as [d | d].
  - destruct d; try apply uint_bytes_no_null.
    simpl. intros [Hd | []]. discriminate Hd.
  - unfold Request.ascii_bytes. cbn [list_ascii_of_string map].
    intros [Hd | Hin]; [discriminate Hd |].
    destruct d; try (by apply uint_bytes_no_null in Hin).
    simpl in Hin. destruct Hin as [Hd | []]. discriminate Hd.
Qed.

(** X10: Integers through the string codec: [pack_string] never fails on an
    integer, and [unpack_string] reads its numeral back. *)
Theorem unpack_string_of_pack_string_int (z : Z) (rest : bytes) :
  exists body,
    pack_string (PyInt z) = Ok (body ++ [Byte.x00]) /\
    unpack_string (S (length body)) (init ((body ++ [Byte.x00]) ++ rest))
    = Some (Ok (py_str (PyInt z)),
            mk ((body ++ [Byte.x00]) ++ rest) (Z.of_nat (length body) + 1)).
Proof.
  exists (Request.decimal_bytes z). split; [apply pack_string_int |].
  unfold unpack_string.
  pose proof (unpack_string_loop_terminated (Request.decimal_bytes z)
                (S (length (Request.decimal_bytes z))) [] rest []
                (decimal_bytes_no_null z) ltac:(lia)) as Hloop.
  cbn [app length] in Hloop. change (Z.of_nat 0) with 0 in Hloop.
  rewrite <- app_assoc. cbn [app]. unfold init. rewrite Hloop.
  do 3 f_equal.
  unfold latin1_decode, Request.decimal_bytes, Request.ascii_bytes.
  cbn [py_str]. unfold str_of_string. rewrite map_map.
  apply map_ext. intros a. apply Byte.to_of_N. symmetry.
  apply Ascii.byte_of_ascii_via_N.
Qed.

End MagicAndStringExtras.

(** * Further properties of the query handler *)

Section HandlerExtras.

Import QueryBuffer QueryServer Request.

Context {remote : Type} `{Countable remote}.

Implicit Types (srv : server) (r : remote) (st : state remote).

Lemma to_signed_8_inj (a b : Byte.byte) :
  to_signed 8 (byte_val a) = to_signed 8 (byte_val b) -> a = b.
Proof.
  intros Hab. apply byte_val_inj.
  pose proof (byte_val_range a). pose proof (byte_val_range b).
  unfold to_signed in Hab. change (2 ^ (8 - 1)) with 128 in Hab.
  change (2 ^ 8) with 256 in Hab.
  destruct (Z.ltb_spec (byte_val a) 128), (Z.ltb_spec (byte_val b) 128); lia.
Qed.

(** X11: A datagram that does not start with the two magic bytes is answered by
    nothing and changes no session; the console gets one message, the debug
    note for a wrong magic or the [struct.error] of a datagram shorter than
    two bytes. *)
Theorem bad_magic_dropped srv r st (data : bytes) :
  firstn 2 data <> pack_magic ->
  let st' := handle_packet srv r (init data) st in
  sent st' = sent st /\
  challenge_cache st' = challenge_cache st /\
  console st' = console st ++ [if (length data <? 2)%nat
                               then Error_exception StructError
                               else Debug_invalid_magic].
Proof.
  intros Hbad. cbv zeta. unfold handle_packet.
  destruct (unpack_magic_result (init data)) as [_ Hcases]; [simpl; lia |].
  cbn [init buf pos] in Hcases. change (Z.to_nat 0) with 0%nat in Hcases.
  change (drop 0 data) with data in Hcases.
  destruct (unpack_magic (init data)) as [[magic | []] q1]; cbn [fst] in Hcases.
  - destruct Hcases as [_ Heq]. contradiction.
  - destruct Hcases as [Hlen _]. rewrite length_firstn in Hlen.
    destruct (Nat.ltb_spec (length data) 2); [lia |]. done.
  - rewrite length_firstn in Hcases.
    destruct (Nat.ltb_spec (length data) 2); [| lia]. done.
  - destruct Hcases.
Qed.

(** X12: A well-formed datagram whose type byte is neither 9 nor 0 changes
    nothing at all: no datagram, no session, no console message. *)
Theorem unknown_packet_type_ignored srv r st (type : Byte.byte)
    (session : word4) (tok : option (word4 * bytes)) :
  type <> Byte.x09 -> type <> Byte.x00 ->
  handle_packet srv r (init (datagram type session tok)) st = st.
Proof.
  intros H9 H0. unfold handle_packet.
  rewrite unpack_magic_datagram, unpack_request_datagram.
  destruct (Z.eqb_spec (to_signed 8 (byte_val type)) 9) as [E9 | _].
  { exfalso. apply H9. by apply to_signed_8_inj. }
  destruct (Z.eqb_spec (to_signed 8 (byte_val type)) 0) as [E0 | _].
  { exfalso. apply H0. by apply to_signed_8_inj. }
  reflexivity.
Qed.

(** X13: Whatever the datagram, the handler sends at most one datagram, to the
    remote the datagram came from, and leaves those sent before in place. *)
Theorem handle_packet_sends_at_most_one srv r st (q : QueryBuffer.t) :
  let st' := handle_packet srv r q st in
  sent st' = sent st \/ exists out, sent st' = sent st ++ [(out, r)].
Proof.
  cbv zeta. unfold handle_packet.
  repeat case_match; subst; cbn [sent send log set_challenge]; eauto.
Qed.

(** X14: Whatever the datagram, the sessions of the other remotes are untouched,
    and the session of the sender is either untouched or overwritten. *)
Theorem handle_packet_session_isolation srv r st (q : QueryBuffer.t) :
  let st' := handle_packet srv r q st in
  (forall r', r' <> r -> challenge_cache st' !! r' = challenge_cache st !! r') /\
  (challenge_cache st' = challenge_cache st \/
   exists token, challenge_cache st' = <[r := token]> (challenge_cache st)).
Proof.
  cbv zeta. unfold handle_packet.
  repeat case_match; subst; cbn [challenge_cache send log set_challenge];
    (split; [intros r' Hr'; by rewrite ?lookup_insert_ne by done | eauto]).
Qed.

(** X15: A datagram cut off inside the session id or inside the token is dropped
    with a [struct.error] on the console, whatever its type byte: after the
    magic there are fewer than 5 bytes, or 6 to 8. *)
Theorem truncated_request_dropped srv r st (rest : bytes) :
  (length rest < 5 \/ 5 < length rest < 9)%nat ->
  let st' := handle_packet srv r (init (Byte.xfe :: Byte.xfd :: rest)) st in
  sent st' = sent st /\
  challenge_cache st' = challenge_cache st /\
  console st' = console st ++ [Error_exception StructError].
Proof.
  intros Hlen. cbv zeta.
  destruct rest as [| b0 [| b1 [| b2 [| b3 [| b4 [| b5 [| b6 [| b7 [| b8 rest]]]]]]]]];
    cbn [length] in Hlen; try (exfalso; lia);
    (split; [| split]; reflexivity).
Qed.

End HandlerExtras.

Section HandlerExtrasWitnesses.

Import QueryBuffer QueryServer Request.

Lemma bad_magic_dropped_witness :
  let st := {| challenge_cache := {[ example_client := 7 ]};
               sent := []; console := [] |} in
  let st' := handle_packet example_server example_client
               (init [Byte.xfd; Byte.xfe; Byte.x09; Byte.x00; Byte.x00; Byte.x00; Byte.x01])
               st in
  sent st' = [] /\
  challenge_cache st' = {[ example_client := 7 ]} /\
  console st' = [Debug_invalid_magic].
Proof.
  intros st.
  apply (bad_magic_dropped example_server example_client st
           [Byte.xfd; Byte.xfe; Byte.x09; Byte.x00; Byte.x00; Byte.x00; Byte.x01]).
  simpl. discriminate.
Defined.

Lemma unknown_packet_type_ignored_witness :
  let st := {| challenge_cache := {[ example_client := 7 ]};
               sent := []; console := [] |} in
  handle_packet example_server example_client
    (init (datagram Byte.x01 (Byte.x00, Byte.x00, Byte.x00, Byte.x01)
             (Some ((Byte.x00, Byte.x00, Byte.x00, Byte.x07), []))))
    st
  = st.
Proof.
  intros st.
  apply (unknown_packet_type_ignored example_server example_client st Byte.x01);
    discriminate.
Defined.

Lemma truncated_request_dropped_witness :
  let st := {| challenge_cache := ∅; sent := []; console := [] |} in
  let st' := handle_packet example_server example_client
               (init (Byte.xfe :: Byte.xfd
                      :: [Byte.x09; Byte.x00; Byte.x00; Byte.x00; Byte.x01;
                          Byte.x00; Byte.x07]))
               st in
  sent st' = [] /\
  challenge_cache st' = ∅ /\
  console st' = [] ++ [Error_exception StructError].
Proof.
  intros st.
  apply (truncated_request_dropped example_server example_client st
           [Byte.x09; Byte.x00; Byte.x00; Byte.x00; Byte.x01; Byte.x00; Byte.x07]).
  simpl. lia.
Defined.

End HandlerExtrasWitnesses.

Section StatExtras.

Import QueryBuffer QueryServer Request.

Context {remote : Type} `{Countable remote}.

Implicit Types (srv : server) (r : remote) (st : state remote).

(** X16: A stat request carrying the stored token and then four zero bytes is
    answered with a full stat: the fields of the server between the fixed
    markers, in one datagram to the sender; sessions are untouched. *)
Theorem full_stat_answer srv r st (session token : word4) (more : bytes)
    (motd version level hostip : bytes) :
  encodable srv motd version level hostip ->
  challenge_cache st !! r = Some (word4_int token) ->
  handle_packet srv r
    (init (datagram Byte.x00 session
             (Some (token, Byte.x00 :: Byte.x00 :: Byte.x00 :: Byte.x00 :: more))))
    st
  = send (full_stat_layout session motd version level
            (decimal_bytes (Z.of_nat (cache_states srv)))
            (decimal_bytes (conf_max_players srv))
            (decimal_bytes (port srv)) hostip) r st.
Proof.
  intros (Hmotd & Hversion & Hlevel & Hip) Hcache.
  rewrite stat_request_selects by exact Hcache.
  cbn [payload firstn bytes_eqb Byte.eqb andb].
  by rewrite (full_stat_eq srv session motd version level hostip).
Qed.

(** X17: A stat request carrying the stored token (none counts as 0) and not
    followed by four zero bytes is answered with a basic stat: type 0, the
    session id, then motd, "SMP", level name, player count, player limit,
    port and address as null-terminated strings, and nothing else. *)
Theorem basic_stat_answer srv r st (session : word4) (tok : option (word4 * bytes))
    (motd version level hostip : bytes) :
  encodable srv motd version level hostip ->
  challenge_cache st !! r = Some (token_value tok) ->
  firstn 4 (payload tok) <> [Byte.x00; Byte.x00; Byte.x00; Byte.x00] ->
  handle_packet srv r (init (datagram Byte.x00 session tok)) st
  = send (basic_stat_layout session motd level
            (decimal_bytes (Z.of_nat (cache_states srv)))
            (decimal_bytes (conf_max_players srv))
            (decimal_bytes (port srv)) hostip) r st.
Proof.
  intros (Hmotd & Hversion & Hlevel & Hip) Hcache Hpayload.
  rewrite stat_request_selects by exact Hcache.
  destruct (bytes_eqb (firstn 4 (payload tok))
              [Byte.x00; Byte.x00; Byte.x00; Byte.x00]) eqn:E.
  { apply bytes_eqb_eq in E. contradiction. }
  by rewrite (basic_stat_eq srv session motd level hostip).
Qed.

Lemma pack_string_ok_or_unicode (o : pyobj) : ok_or_unicode (pack_string o).
Proof.
  destruct o as [s | z].
  - pose proof (pack_string_result s) as Hc.
    destruct (pack_string (PyStr s)); [exact I | tauto].
  - by rewrite pack_string_int.
Qed.

Lemma pack_string_raises (s : str) :
  Exists (fun c => (256 <= c)%N) s -> is_raise (pack_string (PyStr s)) = true.
Proof.
  intros Hex. pose proof (pack_string_result s) as Hc.
  destruct (pack_string (PyStr s)) as [bs | e]; [| reflexivity].
  destruct Hc as [Hall _]. exfalso.
  apply Exists_exists in Hex as (c & Hin & Hc).
  rewrite Forall_forall in Hall. specialize (Hall c Hin). lia.
Qed.

Lemma concat_results_unicode (rs : list (result bytes)) :
  Forall ok_or_unicode rs ->
  Exists (fun res => is_raise res = true) rs ->
  concat_results rs = Raise UnicodeEncodeError.
Proof.
  induction 1 as [| res rs Hr Hall IH]; intros Hex; [by apply Exists_nil in Hex |].
  cbn [concat_results]. destruct res as [b | e].
  - apply Exists_cons in Hex as [Hex | Hex]; [discriminate Hex |].
    cbn [result_bind]. by rewrite IH.
  - simpl in Hr. by subst.
Qed.

(** X18: When the motd, the level name or the address of the server has a
    character above U+00FF, a stat request with the stored token gets no
    answer: packing fails, the console gets the [UnicodeEncodeError], and
    nothing is sent. *)
Theorem stat_not_encodable_no_answer srv r st (session : word4)
    (tok : option (word4 * bytes)) :
  Exists (fun c => (256 <= c)%N) (conf_motd srv) \/
  Exists (fun c => (256 <= c)%N) (conf_level_name srv) \/
  Exists (fun c => (256 <= c)%N) (addr srv) ->
  challenge_cache st !! r = Some (token_value tok) ->
  handle_packet srv r (init (datagram Byte.x00 session tok)) st
  = log (Error_exception UnicodeEncodeError) st.
Proof.
  intros Hbad Hcache. rewrite stat_request_selects by exact Hcache.
  assert (Hfull : full_stat srv 0 (word4_int session) = Raise UnicodeEncodeError).
  { unfold full_stat. rewrite pack_int32_word4_int.
    apply concat_results_unicode.
    - repeat (apply Forall_cons; split;
              [first [exact I | apply pack_string_ok_or_unicode] |]).
      apply Forall_nil_2.
    - rewrite Exists_exists.
      destruct Hbad as [Hbad | [Hbad | Hbad]]; apply pack_string_raises in Hbad;
        eexists; (split; [| exact Hbad]); set_solver. }
  assert (Hbasic : basic_stat srv 0 (word4_int session) = Raise UnicodeEncodeError).
  { unfold basic_stat. rewrite pack_int32_word4_int.
    apply concat_results_unicode.
    - repeat (apply Forall_cons; split;
              [first [exact I | apply pack_string_ok_or_unicode] |]).
      apply Forall_nil_2.
    - rewrite Exists_exists.
      destruct Hbad as [Hbad | [Hbad | Hbad]]; apply pack_string_raises in Hbad;
        eexists; (split; [| exact Hbad]); set_solver. }
  rewrite Hfull, Hbasic. by destruct (bytes_eqb _ _).
Qed.

(** X19: A handshake followed by a stat request with the token of the handshake:
    the stat is answered, so that the two replies are the datagrams sent. *)
Theorem handshake_then_stat_answered srv r st (session1 session2 : word4)
    (tok1 tok2 : option (word4 * bytes)) (motd version level hostip : bytes) :
  encodable srv motd version level hostip ->
  token_value tok2 = token_value tok1 ->
  let st1 := handle_packet srv r (init (datagram Byte.x09 session1 tok1)) st in
  let st2 := handle_packet srv r (init (datagram Byte.x00 session2 tok2)) st1 in
  sent st2
  = sent st
    ++ [([Byte.x09] ++ word4_bytes session1
         ++ cstr (decimal_bytes (token_value tok1)), r);
        (if bytes_eqb (firstn 4 (payload tok2))
                      [Byte.x00; Byte.x00; Byte.x00; Byte.x00]
         then full_stat_layout session2 motd version level
                (decimal_bytes (Z.of_nat (cache_states srv)))
                (decimal_bytes (conf_max_players srv))
                (decimal_bytes (port srv)) hostip
         else basic_stat_layout session2 motd level
                (decimal_bytes (Z.of_nat (cache_states srv)))
                (decimal_bytes (conf_max_players srv))
                (decimal_bytes (port srv)) hostip, r)] /\
  challenge_cache st2 = <[r := token_value tok1]> (challenge_cache st).
Proof.
  intros (Hmotd & Hversion & Hlevel & Hip) Htok. cbv zeta.
  rewrite handshake_request_eq.
  rewrite stat_request_selects
    by (cbn [challenge_cache send set_challenge]; rewrite Htok; apply lookup_insert_eq).
  rewrite (full_stat_eq srv session2 motd version level hostip) by done.
  rewrite (basic_stat_eq srv session2 motd level hostip) by done.
  destruct (bytes_eqb _ _); cbn [sent send set_challenge challenge_cache];
    rewrite <- app_assoc; split; reflexivity.
Qed.

(** X20: A second handshake replaces the token of the first: a stat request that
    still carries the first token is dropped, and the session holds the
    second token. *)
Theorem rehandshake_replaces_token srv r st (session1 session2 session3 : word4)
    (tok1 tok2 tok3 : option (word4 * bytes)) :
  token_value tok3 = token_value tok1 ->
  token_value tok2 <> token_value tok1 ->
  let st1 := handle_packet srv r (init (datagram Byte.x09 session1 tok1)) st in
  let st2 := handle_packet srv r (init (datagram Byte.x09 session2 tok2)) st1 in
  let st3 := handle_packet srv r (init (datagram Byte.x00 session3 tok3)) st2 in
  sent st3 = sent st2 /\
  challenge_cache st3 = <[r := token_value tok2]> (challenge_cache st).
Proof.
  intros H31 H21. cbv zeta.
  rewrite !handshake_request_eq. unfold handle_packet.
  rewrite unpack_magic_datagram, unpack_request_datagram.
  change (to_signed 8 (byte_val Byte.x00)) with 0.
  change (0 =? 9) with false. change (0 =? 0) with true. cbn iota.
  cbn [challenge_cache send set_challenge].
  rewrite bool_decide_eq_false_2.
  - cbn [negb sent challenge_cache log send set_challenge].
    split; [reflexivity | apply insert_insert_eq].
  - rewrite lookup_insert_eq. intros [= Heq]. congruence.
Qed.

End StatExtras.

Section StatExtrasWitnesses.

Import QueryBuffer QueryServer Request.

Lemma example_server_encodable :
  encodable example_server (ascii_bytes "A Minecraft Server") (ascii_bytes "1.16.5")
    (ascii_bytes "world") (ascii_bytes "0.0.0.0").
Proof. repeat split; apply latin1_encode_str_of_string. Qed.

Lemma full_stat_answer_witness :
  let st := {| challenge_cache := {[ example_client := 7 ]};
               sent := []; console := [] |} in
  let session := (Byte.x00, Byte.x00, Byte.x00, Byte.x01) in
  let token := (Byte.x00, Byte.x00, Byte.x00, Byte.x07) in
  handle_packet example_server example_client
    (init (datagram Byte.x00 session
             (Some (token, Byte.x00 :: Byte.x00 :: Byte.x00 :: Byte.x00 :: []))))
    st
  = send (full_stat_layout session (ascii_bytes "A Minecraft Server")
            (ascii_bytes "1.16.5") (ascii_bytes "world")
            (decimal_bytes 0) (decimal_bytes 20) (decimal_bytes 25565)
            (ascii_bytes "0.0.0.0")) example_client st.
Proof.
  intros st session token.
  apply (full_stat_answer example_server example_client st session token []
           (ascii_bytes "A Minecraft Server") (ascii_bytes "1.16.5")
           (ascii_bytes "world") (ascii_bytes "0.0.0.0")).
  - exact example_server_encodable.
  - apply lookup_singleton_eq.
Defined.

Lemma basic_stat_answer_witness :
  let st := {| challenge_cache := {[ example_client := 0 ]};
               sent := []; console := [] |} in
  let session := (Byte.x00, Byte.x00, Byte.x04, Byte.xd2) in
  handle_packet example_server example_client
    (init (datagram Byte.x00 session None)) st
  = send (basic_stat_layout session (ascii_bytes "A Minecraft Server")
            (ascii_bytes "world")
            (decimal_bytes 0) (decimal_bytes 20) (decimal_bytes 25565)
            (ascii_bytes "0.0.0.0")) example_client st.
Proof.
  intros st session.
  apply (basic_stat_answer example_server example_client st session None
           (ascii_bytes "A Minecraft Server") (ascii_bytes "1.16.5")
           (ascii_bytes "world") (ascii_bytes "0.0.0.0")).
  - exact example_server_encodable.
  - apply lookup_singleton_eq.
  - simpl. discriminate.
Defined.

Lemma stat_not_encodable_no_answer_witness :
  let srv := {| addr := str_of_string "0.0.0.0"; port := 25565;
                conf_motd := [8364%N]; conf_level_name := str_of_string "world";
                conf_max_players := 20; meta_version := str_of_string "1.16.5";
                cache_states := 0 |} in
  let st := {| challenge_cache := {[ example_client := 7 ]};
               sent := []; console := [] |} in
  handle_packet srv example_client
    (init (datagram Byte.x00 (Byte.x00, Byte.x00, Byte.x00, Byte.x01)
             (Some ((Byte.x00, Byte.x00, Byte.x00, Byte.x07), []))))
    st
  = log (Error_exception UnicodeEncodeError) st.
Proof.
  intros srv st.
  apply (stat_not_encodable_no_answer srv example_client st).
  - left. apply Exists_cons_hd. simpl. lia.
  - apply lookup_singleton_eq.
Defined.

Lemma handshake_then_stat_answered_witness :
  let st := {| challenge_cache := ∅; sent := []; console := [] |} in
  let session := (Byte.x00, Byte.x00, Byte.x04, Byte.xd2) in
  let st1 := handle_packet example_server example_client
               (init (datagram Byte.x09 session None)) st in
  let st2 := handle_packet example_server example_client
               (init (datagram Byte.x00 session None)) st1 in
  sent st2
  = [] ++ [([Byte.x09] ++ word4_bytes session ++ cstr (decimal_bytes 0),
            example_client);
           (basic_stat_layout session (ascii_bytes "A Minecraft Server")
              (ascii_bytes "world")
              (decimal_bytes 0) (decimal_bytes 20) (decimal_bytes 25565)
              (ascii_bytes "0.0.0.0"), example_client)] /\
  challenge_cache st2 = <[example_client := 0]> ∅.
Proof.
  intros st session.
  apply (handshake_then_stat_answered example_server example_client st
           session session None None
           (ascii_bytes "A Minecraft Server") (ascii_bytes "1.16.5")
           (ascii_bytes "world") (ascii_bytes "0.0.0.0")).
  - exact example_server_encodable.
  - reflexivity.
Defined.

Lemma rehandshake_replaces_token_witness :
  let st := {| challenge_cache := ∅; sent := []; console := [] |} in
  let session := (Byte.x00, Byte.x00, Byte.x04, Byte.xd2) in
  let tok1 := Some ((Byte.x00, Byte.x00, Byte.x00, Byte.x07), []) in
  let tok2 := Some ((Byte.x00, Byte.x00, Byte.x00, Byte.x08), []) in
  let st1 := handle_packet example_server example_client
               (init (datagram Byte.x09 session tok1)) st in
  let st2 := handle_packet example_server example_client
               (init (datagram Byte.x09 session tok2)) st1 in
  let st3 := handle_packet example_server example_client
               (init (datagram Byte.x00 session tok1)) st2 in
  sent st3 = sent st2 /\
  challenge_cache st3 = <[example_client := 8]> ∅.
Proof.
  intros st session tok1 tok2.
  apply (rehandshake_replaces_token example_server example_client st
           session session session tok1 tok2 tok1).
  - reflexivity.
  - vm_compute. discriminate.
Defined.

End StatExtrasWitnesses.

(** * Further properties of the chunk data packet *)

Section ChunkDataExtras.

Import ChunkPackets.

Context {section nbt_tag : Type}.
Variable pack_int : Z -> bytes.
Variable pack_bool : bool -> bytes.
Variable pack_varint : Z -> bytes.
Variable pack_nbt_compound : string -> list nbt_tag -> bytes.
Variable pack_chunk_section_blocks : section -> bytes.

Implicit Types items : list (Z * section).

Local Abbreviation encode :=
  (PlayChunkData_encode pack_int pack_bool pack_varint pack_nbt_compound
     pack_chunk_section_blocks).

Lemma encode_loop_skips_negative items (acc : Z * bytes) :
  fold_left (encode_step pack_chunk_section_blocks) items acc
  = fold_left (encode_step pack_chunk_section_blocks) (sent_sections items) acc.
Proof.
  revert acc. induction items as [| [y sec] items IH]; intros [mask buffer];
    [reflexivity |].
  unfold sent_sections. cbn [List.filter fst fold_left].
  destruct (Z.leb_spec 0 y) as [Hy | Hy].
  - cbn [fold_left]. apply IH.
  - unfold encode_step at 2. destruct (Z.leb_spec 0 y); [lia |]. apply IH.
Qed.

(** X21: Sections below index 0 leave no trace in the packet: a chunk and the
    same chunk without them encode to the same bytes. *)
Theorem negative_sections_not_encoded (c : chunk section nbt_tag) (full : bool) :
  encode c full
  = encode {| x := x c; z := z c;
              sections := sent_sections (sections c);
              heightmaps_motion_blocking := heightmaps_motion_blocking c;
              heightmaps_world_surface := heightmaps_world_surface c;
              biomes := biomes c |} full.
Proof.
  unfold PlayChunkData_encode, encode_sections. cbn [x z sections biomes
    heightmaps_motion_blocking heightmaps_world_surface].
  by rewrite encode_loop_skips_negative.
Qed.

(** X22: The mask depends on the set of section indices only: two section dicts
    with the same indices, in any order and with any contents, give the same
    mask. *)
Theorem mask_depends_on_indices_only items items' :
  (forall y, In y (map fst items) <-> In y (map fst items')) ->
  fst (encode_sections pack_chunk_section_blocks items)
  = fst (encode_sections pack_chunk_section_blocks items').
Proof.
  intros Hkeys.
  destruct (encode_sections_eq (fun _ => []) (fun _ => [])
              pack_chunk_section_blocks items) as (mask & -> & _ & Hbits).
  destruct (encode_sections_eq (fun _ => []) (fun _ => [])
              pack_chunk_section_blocks items') as (mask' & -> & _ & Hbits').
  cbn [fst]. apply Z.bits_inj'. intros i _.
  destruct (Z.testbit mask i) eqn:E, (Z.testbit mask' i) eqn:E'; try reflexivity.
  - apply Hbits in E. rewrite Hkeys in E. apply Hbits' in E. congruence.
  - apply Hbits' in E'. rewrite <- Hkeys in E'. apply Hbits in E'. congruence.
Qed.

(** X23: A chunk with no section at index 0 or above is sent with the mask 0 and
    an empty data array. *)
Theorem chunk_without_sent_sections (c : chunk section nbt_tag) (full : bool) :
  Forall (fun item => fst item < 0) (sections c) ->
  encode c full
  = pack_int (x c) ++ pack_int (z c) ++ pack_bool full
    ++ pack_varint 0
    ++ pack_nbt_compound EmptyString
         [heightmaps_motion_blocking c; heightmaps_world_surface c]
    ++ (if full
        then pack_varint (Z.of_nat (length (biomes c)))
             ++ concat (map pack_varint (biomes c))
        else [])
    ++ pack_varint 0 ++ pack_varint 0.
Proof.
  intros Hneg.
  assert (Hnone : sent_sections (sections c) = []).
  { unfold sent_sections. induction Hneg as [| [y sec] items Hy _ IH];
      [reflexivity |].
    cbn [List.filter fst]. simpl in Hy. destruct (Z.leb_spec 0 y); [lia | exact IH]. }
  unfold PlayChunkData_encode, encode_sections.
  rewrite encode_loop_skips_negative, Hnone. cbn [fold_left length].
  destruct full; rewrite <- ?app_assoc; cbn [app]; reflexivity.
Qed.

Lemma lor_fresh_bit (mask y : Z) :
  0 <= y -> Z.testbit mask y = false -> Z.lor mask (Z.shiftl 1 y) = mask + 2 ^ y.
Proof.
  intros Hy Hbit. rewrite Z.shiftl_1_l, <- Z.add_lor_land.
  replace (Z.land mask (2 ^ y)) with 0; [lia |].
  symmetry. apply Z.bits_inj'. intros i _.
  rewrite Z.land_spec, Z.bits_0, Z.pow2_bits_eqb by done.
  destruct (Z.eqb_spec y i) as [<- | _]; [by rewrite Hbit | apply andb_false_r].
Qed.

(** The sum of [2 ^ y] over the non-negative indices of a list. *)
Lemma encode_loop_mask_sum items (mask : Z) (buffer : bytes) :
  NoDup (map fst items) ->
  (forall y, In y (map fst items) -> Z.testbit mask y = false) ->
  fst (fold_left (encode_step pack_chunk_section_blocks) items (mask, buffer))
  = mask + foldr Z.add 0 (map (fun y => 2 ^ y)
                            (List.filter (fun y => 0 <=? y) (map fst items))).
Proof.
  revert mask buffer. induction items as [| [y sec] items IH];
    intros mask buffer Hnd Hfresh; [simpl; lia |].
  cbn [map fst] in Hnd, Hfresh. apply NoDup_cons in Hnd as [Hy Hnd].
  cbn [fold_left encode_step map fst List.filter].
  destruct (Z.leb_spec 0 y) as [Hpos | Hneg].
  - rewrite IH; [| exact Hnd |].
    + rewrite lor_fresh_bit by (try lia; apply Hfresh; by left).
      cbn [map foldr]. lia.
    + intros y' Hin. rewrite Z.lor_spec, testbit_shiftl_1 by done.
      rewrite (Hfresh y') by (by right).
      destruct (Z.eqb_spec y y') as [-> | _]; [| reflexivity].
      exfalso. apply Hy. by apply list_elem_of_In.
  - rewrite IH; [reflexivity | exact Hnd |].
    intros y' Hin. apply Hfresh. by right.
Qed.

(** X24: With distinct indices, as in a dict, the mask is the sum of [2 ^ y] over
    the indices [y >= 0]. *)
Theorem mask_is_sum_of_powers items :
  NoDup (map fst items) ->
  fst (encode_sections pack_chunk_section_blocks items)
  = foldr Z.add 0 (map (fun y => 2 ^ y)
                     (List.filter (fun y => 0 <=? y) (map fst items))).
Proof.
  intros Hnd. unfold encode_sections.
  rewrite encode_loop_mask_sum; [lia | exact Hnd |].
  intros y _. apply Z.bits_0.
Qed.

End ChunkDataExtras.

Lemma chunk_without_sent_sections_witness :
  let c := {| ChunkPackets.x := 0; ChunkPackets.z := 1;
              ChunkPackets.sections := [(-1, [Byte.x0c]); (-4, [Byte.x0d])];
              ChunkPackets.heightmaps_motion_blocking := tt;
              ChunkPackets.heightmaps_world_surface := tt;
              ChunkPackets.biomes := [] |} in
  ChunkPackets.PlayChunkData_encode
    (fun n => [byte_of_Z n]) (fun _ => []) (fun n => [byte_of_Z n])
    (fun _ _ => []) (fun sec => sec) c false
  = [Byte.x00] ++ [Byte.x01] ++ [] ++ [Byte.x00] ++ [] ++ []
    ++ [Byte.x00] ++ [Byte.x00].
Proof.
  intros c.
  apply (chunk_without_sent_sections
           (fun n => [byte_of_Z n]) (fun _ => []) (fun n => [byte_of_Z n])
           (fun _ _ => []) (fun sec => sec) c false).
  simpl. repeat constructor; simpl; lia.
Defined.

Lemma mask_depends_on_indices_only_witness :
  fst (ChunkPackets.encode_sections (fun sec : bytes => sec)
         [(2, [Byte.x0a]); (0, [Byte.x0b])])
  = fst (ChunkPackets.encode_sections (fun sec : bytes => sec)
           [(0, []); (2, [Byte.x0c; Byte.x0d])]).
Proof.
  apply (mask_depends_on_indices_only (fun sec : bytes => sec)
           [(2, [Byte.x0a]); (0, [Byte.x0b])] [(0, []); (2, [Byte.x0c; Byte.x0d])]).
  intros y. simpl. tauto.
Defined.

Lemma mask_is_sum_of_powers_witness :
  fst (ChunkPackets.encode_sections (fun sec : bytes => sec)
         [(-1, [Byte.x0c]); (0, [Byte.x0a]); (4, [Byte.x0b])])
  = foldr Z.add 0 (map (fun y => 2 ^ y) [0; 4]).
Proof.
  apply (mask_is_sum_of_powers (fun sec : bytes => sec)
           [(-1, [Byte.x0c]); (0, [Byte.x0a]); (4, [Byte.x0b])]).
  simpl. apply (bool_decide_unpack _). by vm_compute.
Defined.

(** * Further properties of the packet classes *)

Section PacketExtras.

Import Packet.
Local Open Scope string_scope.

Context {chunk : Type}.



End PacketExtras.

(** * Entity ids and plugin configuration *)

Section ApiExtras.

Import PyMineAPI.

Lemma eid_calls_eq (n : nat) (eid_current : Z) :
  eid_calls n eid_current
  = (map (fun k => eid_current + Z.of_nat k) (seq 1 n), eid_current + Z.of_nat n).
Proof.
  revert eid_current. induction n as [| n IH]; intros c.
  - simpl. f_equal. lia.
  - cbn [eid_calls eid]. rewrite IH. cbn [seq map]. f_equal.
    + f_equal. rewrite <- (seq_shift n 1), map_map. apply map_ext. intros k. lia.
    + lia.
Qed.

(** X26: Ids handed out in a row are all different, all above the counter they
    started from, and the counter ends at the last id: the ids are
    [c + 1, ..., c + n]. *)
Theorem eid_never_repeats (n : nat) (eid_current : Z) :
  let '(ids, eid_current') := eid_calls n eid_current in
  NoDup ids /\
  Forall (fun id => eid_current < id <= eid_current') ids /\
  length ids = n /\
  eid_current' = eid_current + Z.of_nat n.
Proof.
  rewrite eid_calls_eq. split; [| split; [| split]].
  - apply NoDup_fmap_2; [intros a b; lia | apply NoDup_seq].
  - rewrite Forall_forall. intros id Hin. apply list_elem_of_In in Hin.
    apply in_map_iff in Hin as (k & <- & Hk). apply in_seq in Hk. lia.
  - by rewrite length_map, length_seq.
  - reflexivity.
Qed.

Lemma dict_get_normalised (conf : list (yaml * yaml)) (name : str) :
  dict_get (map (fun '(key, value) =>
                   (key, if is_empty_str value then YNull else value)) conf) name
  = (if is_empty_str (dict_get conf name) then YNull else dict_get conf name).
Proof.
  induction conf as [| [key value] conf IH]; [reflexivity |].
  cbn [map dict_get]. destruct (is_key name key); [reflexivity | exact IH].
Qed.

(** X27: A configuration that [load_plugin_config] returns comes from a dict,
    has the keys of the file in their order, holds no empty string, and its
    [git_url] and [module_folder] are either [None] (or missing) or a string
    that is not empty. *)
Theorem load_plugin_config_result (file : loaded) (conf' : list (yaml * yaml)) :
  load_plugin_config file = inr conf' ->
  (exists conf, file = Parsed (YMap conf) /\ map fst conf' = map fst conf) /\
  Forall (fun entry => is_empty_str (snd entry) = false) conf' /\
  forall name,
    name = str_of_string "git_url" \/ name = str_of_string "module_folder" ->
    dict_get conf' name = YNull \/
    exists s, dict_get conf' name = YStr s /\ s <> [].
Proof.
  destruct file as [| | doc]; try discriminate.
  destruct doc as [| | | | | | conf]; try discriminate.
  cbn [load_plugin_config].
  destruct (negb (is_None (dict_get conf (str_of_string "git_url")))
            && negb (is_str (dict_get conf (str_of_string "git_url")))) eqn:Hgit;
    [discriminate |].
  destruct (negb (is_None (dict_get conf (str_of_string "module_folder")))
            && negb (is_str (dict_get conf (str_of_string "module_folder"))))
    eqn:Hfolder; [discriminate |].
  intros [= <-]. split; [| split].
  - exists conf. split; [reflexivity |]. rewrite map_map. apply map_ext.
    by intros [key value].
  - rewrite Forall_forall. intros entry Hin. apply list_elem_of_In in Hin.
    apply in_map_iff in Hin as ([key value] & <- & _). cbn [snd].
    by destruct value as [| | | [| ? ?] | | |].
  - intros name Hname. rewrite dict_get_normalised.
    assert (Hv : negb (is_None (dict_get conf name))
                 && negb (is_str (dict_get conf name)) = false)
      by (destruct Hname as [-> | ->]; assumption).
    destruct (dict_get conf name) as [| | | [| c s] | | |];
      try discriminate Hv; cbn [is_empty_str]; [by left | by left |].
    right. by exists (c :: s).
Qed.

End ApiExtras.

Lemma eid_never_repeats_example :
  PyMineAPI.eid_calls 3 0 = ([1; 2; 3], 3).
Proof. reflexivity. Qed.

Lemma load_plugin_config_result_witness :
  let conf := [(PyMineAPI.YStr (str_of_string "git_url"), PyMineAPI.YStr []);
               (PyMineAPI.YStr (str_of_string "module_folder"),
                PyMineAPI.YStr (str_of_string "src"));
               (PyMineAPI.YInt 1, PyMineAPI.YBool true)] in
  let conf' := [(PyMineAPI.YStr (str_of_string "git_url"), PyMineAPI.YNull);
                (PyMineAPI.YStr (str_of_string "module_folder"),
                 PyMineAPI.YStr (str_of_string "src"));
                (PyMineAPI.YInt 1, PyMineAPI.YBool true)] in
  PyMineAPI.load_plugin_config (PyMineAPI.Parsed (PyMineAPI.YMap conf)) = inr conf' /\
  Forall (fun entry => PyMineAPI.is_empty_str (snd entry) = false) conf'.
Proof.
  intros conf conf'.
  assert (Hload : PyMineAPI.load_plugin_config (PyMineAPI.Parsed (PyMineAPI.YMap conf))
                  = inr conf') by (vm_compute; reflexivity).
  split; [exact Hload |].
  apply (load_plugin_config_result _ _ Hload).
Defined.

Section PluginPathExtras.

Import PyMineAPI.

Lemma drop_while_app_all (p : N -> bool) (s1 s2 : str) :
  Forall (fun c => p c = true) s1 -> drop_while p (s1 ++ s2) = drop_while p s2.
Proof.
  induction 1 as [| c s1 Hc _ IH]; [reflexivity |].
  cbn [app drop_while]. by rewrite Hc.
Qed.

Lemma str_rstrip_py_extension (stem : str) :
  str_rstrip (str_of_string ".py") (stem ++ str_of_string ".py")
  = str_rstrip (str_of_string ".py") stem.
Proof.
  unfold str_rstrip. f_equal. rewrite rev_app_distr.
  apply drop_while_app_all. repeat constructor.
Qed.

(** X28: The [.py] extension is stripped as a set of characters: together with
    it, every trailing ".", "p" and "y" of the name in front of it goes. *)
Theorem plugin_file_module_path_strips_stem (stem : str) :
  plugin_file_module_path (stem ++ str_of_string ".py")
  = str_replace_char 47 46
      (str_replace_char 92 47 (str_rstrip (str_of_string ".py") stem)).
Proof.
  unfold plugin_file_module_path. by rewrite str_rstrip_py_extension.
Qed.

(** X29: For a file whose name in front of [.py] does not end in ".", "p" or "y",
    the module path is that name with every separator turned into a dot. *)
Theorem plugin_file_module_path_of_stem (pre : str) (c : N) :
  c <> 46%N -> c <> 112%N -> c <> 121%N ->
  plugin_file_module_path ((pre ++ [c]) ++ str_of_string ".py")
  = str_replace_char 47 46 (str_replace_char 92 47 (pre ++ [c])).
Proof.
  intros Hdot Hp Hy. unfold plugin_file_module_path.
  rewrite str_rstrip_py_extension.
  do 2 f_equal. unfold str_rstrip. rewrite rev_app_distr.
  cbn [rev app drop_while existsb str_of_string list_ascii_of_string map].
  destruct (N.eqb_spec c (N_of_ascii ".")) as [E | _]; [by subst |].
  destruct (N.eqb_spec c (N_of_ascii "p")) as [E | _]; [by subst |].
  destruct (N.eqb_spec c (N_of_ascii "y")) as [E | _]; [by subst |].
  cbn [orb rev]. by rewrite rev_involutive.
Qed.

End PluginPathExtras.

Lemma plugin_file_module_path_of_stem_witness :
  PyMineAPI.plugin_file_module_path
    ((str_of_string "plugins/chat" ++ [115%N]) ++ str_of_string ".py")
  = str_of_string "plugins.chats".
Proof.
  apply (plugin_file_module_path_of_stem (str_of_string "plugins/chat") 115);
    discriminate.
Defined.

(** A plugin file whose name ends in "y" loses more than its extension. *)
Example plugin_file_module_path_happy :
  PyMineAPI.plugin_file_module_path (str_of_string "plugins/happy.py")
  = str_of_string "plugins.ha".
Proof. reflexivity. Qed.
